(** * ESP-TOC visualizer: the filtering and aggregation core of [src/App.js]

    The component [ESPTOCVisualizer] keeps a dataset and four filter strings,
    and derives from them a filtered view ([filteredData]), three facet option
    lists ([universities], [departments], [programs]), summary statistics
    ([stats]) and a currency label ([formatCurrency]).  This file embeds those
    definitions and proves what the specification says about them.

    Conventions of the embedding:
    - a JavaScript string is the list of its UTF-16 code units;
    - a record field holds [Undefined] (the column is absent from the row),
      [Null], or a value of the type the data model gives it;
    - an expression that can raise evaluates to a [completion];
    - what the engine supplies from tables that are not in the source
      (Unicode case mapping, the arithmetic of Number, locale rendering)
      is an interface, [Platform]; [Reference.platform] is one instance. *)

From Stdlib Require Import String Ascii.
From Stdlib Require Import List Bool Arith ZArith NArith Lia.
From Stdlib Require Import Sorting.Sorted Sorting.Permutation.
From Stdlib Require Import QArith Qcanon Qround Qabs.
Import ListNotations.

Close Scope Qc_scope.
Close Scope Q_scope.
Open Scope nat_scope.

Set Implicit Arguments.

(* ================================================================== *)
(** * The fragment of JavaScript that the component uses *)

Module JS.

(** ** Strings *)

Definition jsstring := list N.

(** A literal, written with the characters of its ASCII spelling. *)
Definition str (s : string) : jsstring :=
  map N_of_ascii (list_ascii_of_string s).

(** [s === t] on strings. *)
Fixpoint jsstring_eqb (s t : jsstring) : bool :=
  match s, t with
  | [], [] => true
  | c :: s', d :: t' => N.eqb c d && jsstring_eqb s' t'
  | _, _ => false
  end.

(** [s < t]: comparison of code units, left to right; a proper prefix is less. *)
Fixpoint jsstring_ltb (s t : jsstring) : bool :=
  match s, t with
  | _, [] => false
  | [], _ :: _ => true
  | c :: s', d :: t' =>
      if N.ltb c d then true
      else if N.ltb d c then false
      else jsstring_ltb s' t'
  end.

(** [s.startsWith(t)]. *)
Fixpoint startsWith (s t : jsstring) : bool :=
  match t, s with
  | [], _ => true
  | _ :: _, [] => false
  | d :: t', c :: s' => N.eqb c d && startsWith s' t'
  end.

(** [s.includes(t)]: [t] occurs in [s] at some position. *)
Fixpoint includes (s t : jsstring) : bool :=
  startsWith s t ||
  match s with
  | [] => false
  | _ :: s' => includes s' t
  end.

(** ** Values of optional fields *)

Inductive value (A : Type) : Type :=
| Undefined : value A
| Null : value A
| Present : A -> value A.

Arguments Undefined {A}.
Arguments Null {A}.
Arguments Present {A} _.

Definition nullish {A} (v : value A) : bool :=
  match v with
  | Present _ => false
  | _ => true
  end.

(** [ToBoolean] of a value that is a boolean when present. *)
Definition truthy (v : value bool) : bool :=
  match v with
  | Present b => b
  | _ => false
  end.

(** [v === s] where [s] is a string. *)
Definition strict_eq (v : value jsstring) (s : jsstring) : bool :=
  match v with
  | Present x => jsstring_eqb x s
  | _ => false
  end.

(** [SameValueZero] on optional strings, the equality of [Set]. *)
Definition SameValueZero (x y : value jsstring) : bool :=
  match x, y with
  | Undefined, Undefined => true
  | Null, Null => true
  | Present s, Present t => jsstring_eqb s t
  | _, _ => false
  end.

(** ** Completions *)

Inductive error : Type := TypeError | RangeError.

Inductive completion (A : Type) : Type :=
| Normal : A -> completion A
| Throw : error -> completion A.

Arguments Normal {A} _.
Arguments Throw {A} _.

Definition bind {A B} (c : completion A) (k : A -> completion B) : completion B :=
  match c with
  | Normal a => k a
  | Throw e => Throw e
  end.

Notation "x <- c ;; k" := (bind c (fun x => k))
  (at level 61, c at next level, right associativity).

(** [v.m()]: reading a property of [undefined] or [null] raises [TypeError]. *)
Definition member_call {A B} (v : value A) (m : A -> B) : completion B :=
  match v with
  | Present a => Normal (m a)
  | _ => Throw TypeError
  end.

(** [v?.rest]: when [v] is nullish the whole chain is [undefined] and [rest]
    is not evaluated; otherwise the chain is evaluated on [v]. *)
Definition optional_chain {A B}
    (v : value A) (rest : value A -> completion B) : completion (value B) :=
  if nullish v then Normal Undefined
  else b <- rest v ;; Normal (Present b).

(** [a || b] and [a && b]: the right operand is reached only when the left
    one does not decide, so what it would raise is not raised otherwise. *)
Definition logical_or (a b : completion (value bool)) : completion (value bool) :=
  v <- a ;; if truthy v then Normal v else b.

Definition logical_and (a b : value bool) : value bool :=
  if truthy a then b else a.

(** ** Arrays *)

(** [l.filter(f)]: the callback runs on each element in order; an element is
    kept when the result is truthy; what the callback raises is raised. *)
Fixpoint Array_filter {A} (f : A -> completion (value bool)) (l : list A)
    : completion (list A) :=
  match l with
  | [] => Normal []
  | x :: l' =>
      v <- f x ;;
      r <- Array_filter f l' ;;
      Normal (if truthy v then x :: r else r)
  end.

(** [String(v)] as the default comparison of [sort] applies it. *)
Definition ToString (v : value jsstring) : jsstring :=
  match v with
  | Undefined => str "undefined"
  | Null => str "null"
  | Present s => s
  end.

(** [SortCompare(x, y) <= 0] with no comparator: [undefined] goes after
    everything else, the rest is ordered by [String(x) < String(y)]. *)
Definition SortCompare_le (x y : value jsstring) : bool :=
  match x, y with
  | Undefined, Undefined => true
  | Undefined, _ => false
  | _, Undefined => true
  | _, _ => negb (jsstring_ltb (ToString y) (ToString x))
  end.

Fixpoint sort_insert (x : value jsstring) (l : list (value jsstring))
    : list (value jsstring) :=
  match l with
  | [] => [x]
  | y :: l' => if SortCompare_le x y then x :: l else y :: sort_insert x l'
  end.

(** [l.sort()]: a stable sort by [SortCompare]. *)
Fixpoint Array_sort (l : list (value jsstring)) : list (value jsstring) :=
  match l with
  | [] => []
  | x :: l' => sort_insert x (Array_sort l')
  end.

(** ** Sets, kept in insertion order *)

Definition Set_has (s : list (value jsstring)) (v : value jsstring) : bool :=
  existsb (SameValueZero v) s.

Definition Set_add (s : list (value jsstring)) (v : value jsstring)
    : list (value jsstring) :=
  if Set_has s v then s else s ++ [v].

(** [new Set(l)] adds the elements of [l] one by one. *)
Definition new_Set (l : list (value jsstring)) : list (value jsstring) :=
  fold_left Set_add l [].

(** [s.size]. *)
Definition Set_size (s : list (value jsstring)) : nat := length s.

(** [[...s]]. *)
Definition spread (s : list (value jsstring)) : list (value jsstring) := s.

(** ** Intl.NumberFormat options *)

Inductive NumberStyle : Type := style_decimal | style_percent | style_currency.

Record NumberFormatOptions : Type := {
  style : NumberStyle;
  currency : jsstring;
  minimumFractionDigits : option nat;
  maximumFractionDigits : option nat
}.

(** What a formatter hands to the locale: sign, integer digits and fraction
    digits, most significant first. *)
Record NumberParts : Type := {
  negative : bool;
  integerDigits : list N;
  fractionDigits : list N
}.

(** ** What the engine supplies *)

Class Platform : Type := {
  (** [String.prototype.toLowerCase] *)
  toLowerCase : jsstring -> jsstring;
  (** Number: the literal [0], [+], [/], the Number of a length,
      [ToBoolean], and the sign and magnitude of the integer nearest to
      [x * 10^f], ties away from zero *)
  number : Type;
  num_zero : number;
  num_add : number -> number -> number;
  num_div : number -> number -> number;
  num_of_nat : nat -> number;
  num_truthy : number -> bool;
  num_scaled_round : number -> nat -> bool * N;
  (** the fraction digits that the engine's currency data gives a currency *)
  CurrencyDigits : jsstring -> nat;
  (** how a locale writes a number whose digits have been chosen *)
  locale_render : jsstring -> NumberFormatOptions -> NumberParts -> jsstring
}.

(** ** Intl.NumberFormat: the choice of fraction digits (ECMA-402) *)

Section Intl.
Context {P : Platform}.

(** [SetNumberFormatDigitOptions], fraction digits only: an option that is
    given must lie in 0..100; a bound that is not given is derived from the
    default and from the other bound; a minimum above the maximum raises. *)
Definition SetNumberFormatDigitOptions (opts : NumberFormatOptions)
    : completion (nat * nat) :=
  let dflt :=
    match style opts with
    | style_currency =>
        let d := CurrencyDigits (currency opts) in (d, d)
    | style_percent => (0, 0)
    | style_decimal => (0, 3)
    end in
  match minimumFractionDigits opts, maximumFractionDigits opts with
  | None, None => Normal dflt
  | None, Some mx =>
      if 100 <? mx then Throw RangeError
      else Normal (Nat.min (fst dflt) mx, mx)
  | Some mn, None =>
      if 100 <? mn then Throw RangeError
      else Normal (mn, Nat.max (snd dflt) mn)
  | Some mn, Some mx =>
      if (100 <? mn) || (100 <? mx) || (mx <? mn) then Throw RangeError
      else Normal (mn, mx)
  end.

(** The [f] low decimal digits of [r], most significant first. *)
Fixpoint fixed_digits (f : nat) (r : N) : list N :=
  match f with
  | O => []
  | S f' => fixed_digits f' (r / 10) ++ [(r mod 10)%N]
  end.

(** Removes at most [cut] zeros from the front of a reversed digit list. *)
Fixpoint drop_zeros (cut : nat) (rev_digits : list N) : list N :=
  match cut, rev_digits with
  | S c, d :: r => if N.eqb d 0 then drop_zeros c r else rev_digits
  | _, _ => rev_digits
  end.

Fixpoint uint_digits (u : Decimal.uint) : list N :=
  match u with
  | Decimal.Nil => []
  | Decimal.D0 u' => 0%N :: uint_digits u'
  | Decimal.D1 u' => 1%N :: uint_digits u'
  | Decimal.D2 u' => 2%N :: uint_digits u'
  | Decimal.D3 u' => 3%N :: uint_digits u'
  | Decimal.D4 u' => 4%N :: uint_digits u'
  | Decimal.D5 u' => 5%N :: uint_digits u'
  | Decimal.D6 u' => 6%N :: uint_digits u'
  | Decimal.D7 u' => 7%N :: uint_digits u'
  | Decimal.D8 u' => 8%N :: uint_digits u'
  | Decimal.D9 u' => 9%N :: uint_digits u'
  end.

(** [ToRawFixed]: round to [maxFraction] decimals, then drop trailing zeros
    of the fraction while more than [minFraction] digits remain. *)
Definition ToRawFixed (x : number) (minFraction maxFraction : nat) : NumberParts :=
  let '(neg, n) := num_scaled_round x maxFraction in
  let scale := (10 ^ N.of_nat maxFraction)%N in
  {| negative := neg;
     integerDigits := uint_digits (N.to_uint (n / scale));
     fractionDigits :=
       rev (drop_zeros (maxFraction - minFraction)
              (rev (fixed_digits maxFraction (n mod scale)))) |}.

(** [new Intl.NumberFormat(locale, opts).format(x)]. *)
Definition NumberFormat_parts (opts : NumberFormatOptions) (x : number)
    : completion NumberParts :=
  d <- SetNumberFormatDigitOptions opts ;;
  Normal (ToRawFixed x (fst d) (snd d)).

Definition NumberFormat_format (locale : jsstring) (opts : NumberFormatOptions)
    (x : number) : completion jsstring :=
  parts <- NumberFormat_parts opts x ;;
  Normal (locale_render locale opts parts).

End Intl.

End JS.

(* ================================================================== *)
(** * The component *)

Module App.
Import JS.

(** The four [useState] strings that make the filter state. *)
Record FilterState : Type := {
  searchTerm : jsstring;
  selectedUniversity : jsstring;
  selectedDepartment : jsstring;
  selectedProgram : jsstring
}.

(** The state as [useState('')] creates it. *)
Definition initialState : FilterState :=
  {| searchTerm := []; selectedUniversity := [];
     selectedDepartment := []; selectedProgram := [] |}.

Definition setSearchTerm (s : jsstring) (st : FilterState) : FilterState :=
  {| searchTerm := s;
     selectedUniversity := selectedUniversity st;
     selectedDepartment := selectedDepartment st;
     selectedProgram := selectedProgram st |}.

Definition setSelectedUniversity (s : jsstring) (st : FilterState) : FilterState :=
  {| searchTerm := searchTerm st;
     selectedUniversity := s;
     selectedDepartment := selectedDepartment st;
     selectedProgram := selectedProgram st |}.

Definition setSelectedDepartment (s : jsstring) (st : FilterState) : FilterState :=
  {| searchTerm := searchTerm st;
     selectedUniversity := selectedUniversity st;
     selectedDepartment := s;
     selectedProgram := selectedProgram st |}.

Definition setSelectedProgram (s : jsstring) (st : FilterState) : FilterState :=
  {| searchTerm := searchTerm st;
     selectedUniversity := selectedUniversity st;
     selectedDepartment := selectedDepartment st;
     selectedProgram := s |}.

(** [clearFilters]: the four setters, each with the empty string. *)
Definition clearFilters (st : FilterState) : FilterState :=
  setSelectedProgram []
    (setSelectedDepartment []
       (setSelectedUniversity []
          (setSearchTerm [] st))).

(** What the user can do to the filter state: type in the search box, pick
    an option in one of the three selects, press the clear button. *)
Inductive UserAction : Type :=
| ChangeSearch (s : jsstring)
| ChangeUniversity (s : jsstring)
| ChangeDepartment (s : jsstring)
| ChangeProgram (s : jsstring)
| ClickClear.

(** The [onChange] and [onClick] handlers. *)
Definition handle (st : FilterState) (a : UserAction) : FilterState :=
  match a with
  | ChangeSearch s => setSearchTerm s st
  | ChangeUniversity s => setSelectedUniversity s st
  | ChangeDepartment s => setSelectedDepartment s st
  | ChangeProgram s => setSelectedProgram s st
  | ClickClear => clearFilters st
  end.

Definition run (st : FilterState) (actions : list UserAction) : FilterState :=
  fold_left handle actions st.

Section Component.
Context {P : Platform}.

(** A row of the sheet, with the columns that the core reads. *)
Record item : Type := {
  NOMBRE_IES : value jsstring;
  NOMBRE_DEL_PROGRAMA : value jsstring;
  DEPARTAMENTO : value jsstring;
  MUNICIPIO : value jsstring;
  VALOR_MATRICULA : value number
}.

(** [field?.toLowerCase().includes(searchTerm.toLowerCase())] *)
Definition field_includes (field : value jsstring) (term : jsstring)
    : completion (value bool) :=
  optional_chain field (fun v =>
    lowered <- member_call v toLowerCase ;;
    Normal (includes lowered (toLowerCase term))).

(** [matchesSearch] *)
Definition matchesSearch (st : FilterState) (it : item) : completion (value bool) :=
  logical_or
    (logical_or
       (logical_or
          (logical_or
             (Normal (Present (jsstring_eqb (searchTerm st) [])))
             (field_includes (NOMBRE_IES it) (searchTerm st)))
          (field_includes (NOMBRE_DEL_PROGRAMA it) (searchTerm st)))
       (field_includes (DEPARTAMENTO it) (searchTerm st)))
    (field_includes (MUNICIPIO it) (searchTerm st)).

Definition matchesUniversity (st : FilterState) (it : item) : bool :=
  jsstring_eqb (selectedUniversity st) [] ||
  strict_eq (NOMBRE_IES it) (selectedUniversity st).

Definition matchesDepartment (st : FilterState) (it : item) : bool :=
  jsstring_eqb (selectedDepartment st) [] ||
  strict_eq (DEPARTAMENTO it) (selectedDepartment st).

Definition matchesProgram (st : FilterState) (it : item) : bool :=
  jsstring_eqb (selectedProgram st) [] ||
  strict_eq (NOMBRE_DEL_PROGRAMA it) (selectedProgram st).

(** The callback of [data.filter]. *)
Definition filter_callback (st : FilterState) (it : item) : completion (value bool) :=
  search <- matchesSearch st it ;;
  Normal
    (logical_and
       (logical_and
          (logical_and search (Present (matchesUniversity st it)))
          (Present (matchesDepartment st it)))
       (Present (matchesProgram st it))).

(** [filteredData] *)
Definition filteredData (data : list item) (st : FilterState)
    : completion (list item) :=
  Array_filter (filter_callback st) data.

(** [universities], [departments], [programs] *)
Definition universities (data : list item) : list (value jsstring) :=
  Array_sort (spread (new_Set (map NOMBRE_IES data))).

Definition departments (data : list item) : list (value jsstring) :=
  Array_sort (spread (new_Set (map DEPARTAMENTO data))).

Definition programs (data : list item) : list (value jsstring) :=
  Array_sort (spread (new_Set (map NOMBRE_DEL_PROGRAMA data))).

(** [stats] *)
Record Stats : Type := {
  totalPrograms : nat;
  uniqueUniversities : nat;
  uniqueDepartments : nat;
  avgMatricula : number
}.

(** [item.VALOR_MATRICULA || 0] *)
Definition matricula_or_zero (v : value number) : number :=
  match v with
  | Present n => if num_truthy n then n else num_zero
  | _ => num_zero
  end.

(** [filteredData.reduce((sum, item) => sum + (item.VALOR_MATRICULA || 0), 0)] *)
Definition sum_matricula (filtered : list item) : number :=
  fold_left
    (fun sum it => num_add sum (matricula_or_zero (VALOR_MATRICULA it)))
    filtered num_zero.

Definition stats (filtered : list item) : Stats :=
  {| totalPrograms := length filtered;
     uniqueUniversities := Set_size (new_Set (map NOMBRE_IES filtered));
     uniqueDepartments := Set_size (new_Set (map DEPARTAMENTO filtered));
     avgMatricula :=
       if 0 <? length filtered
       then num_div (sum_matricula filtered) (num_of_nat (length filtered))
       else num_zero |}.

(** The options that [formatCurrency] passes to [Intl.NumberFormat]. *)
Definition currencyOptions : NumberFormatOptions :=
  {| style := style_currency;
     currency := str "COP";
     minimumFractionDigits := Some 0;
     maximumFractionDigits := None |}.

Definition notAvailable : jsstring := str "No disponible".

(** [formatCurrency]: [!value] holds for [undefined], for [null] and for a
    number that is falsy. *)
Definition formatCurrency (v : value number) : completion jsstring :=
  match v with
  | Present n =>
      if negb (num_truthy n) then Normal notAvailable
      else NumberFormat_format (str "es-CO") currencyOptions n
  | _ => Normal notAvailable
  end.

End Component.

End App.

(* ================================================================== *)
(** * The specification's wording, as definitions to compare with *)

Module Spec.
Import JS App.

Section Wording.
Context {P : Platform}.

(** "the lowercase form of the term is a substring of the lowercased value"
    of a field that is there. *)
Definition field_matches (term : jsstring) (field : value jsstring) : bool :=
  match field with
  | Present s => includes (toLowerCase s) (toLowerCase term)
  | _ => false
  end.

(** The search predicate: the term is empty, or it matches one of the four
    text fields. *)
Definition search_holds (term : jsstring) (it : item) : bool :=
  jsstring_eqb term [] ||
  existsb (field_matches term)
    [NOMBRE_IES it; NOMBRE_DEL_PROGRAMA it; DEPARTAMENTO it; MUNICIPIO it].

(** A selection is empty or equals the field exactly. *)
Definition selection_holds (selection : jsstring) (field : value jsstring) : bool :=
  jsstring_eqb selection [] ||
  match field with
  | Present s => jsstring_eqb s selection
  | _ => false
  end.

(** The four predicates, conjunctively. *)
Definition record_matches (st : FilterState) (it : item) : bool :=
  search_holds (searchTerm st) it &&
  selection_holds (selectedUniversity st) (NOMBRE_IES it) &&
  selection_holds (selectedDepartment st) (DEPARTAMENTO it) &&
  selection_holds (selectedProgram st) (NOMBRE_DEL_PROGRAMA it).

(** The same four predicates as propositions. *)
Definition is_substring (t s : jsstring) : Prop :=
  exists pre post, s = pre ++ t ++ post.

Definition search_as_specified (term : jsstring) (it : item) : Prop :=
  term = [] \/
  exists field s,
    In field [NOMBRE_IES it; NOMBRE_DEL_PROGRAMA it; DEPARTAMENTO it; MUNICIPIO it] /\
    field = Present s /\
    is_substring (toLowerCase term) (toLowerCase s).

Definition selection_as_specified (selection : jsstring) (field : value jsstring)
    : Prop :=
  selection = [] \/ field = Present selection.

Definition matches_as_specified (st : FilterState) (it : item) : Prop :=
  search_as_specified (searchTerm st) it /\
  selection_as_specified (selectedUniversity st) (NOMBRE_IES it) /\
  selection_as_specified (selectedDepartment st) (DEPARTAMENTO it) /\
  selection_as_specified (selectedProgram st) (NOMBRE_DEL_PROGRAMA it).

(** A missing tuition counts as zero in the sum. *)
Definition tuition_or_zero (it : item) : number :=
  match VALOR_MATRICULA it with
  | Present n => n
  | _ => num_zero
  end.

(** A tuition that is falsy is the number zero: so it is for the amounts of
    a sheet; a NaN would be falsy without being zero. *)
Definition falsy_tuition_is_zero (it : item) : Prop :=
  forall n, VALOR_MATRICULA it = Present n -> num_truthy n = false -> n = num_zero.


(** The four text fields of a record are all missing. *)
Definition no_text_field (it : item) : Prop :=
  nullish (NOMBRE_IES it) = true /\ nullish (NOMBRE_DEL_PROGRAMA it) = true /\
  nullish (DEPARTAMENTO it) = true /\ nullish (MUNICIPIO it) = true.

(** The sum over a view, from zero, in the order of the view. *)
Definition tuition_sum (view : list item) : number :=
  fold_left (fun sum it => num_add sum (tuition_or_zero it)) view num_zero.

End Wording.

(** A subsequence: elements are dropped, none is added, moved or repeated. *)
Inductive subsequence {A : Type} : list A -> list A -> Prop :=
| subsequence_nil : subsequence [] []
| subsequence_keep x l1 l2 : subsequence l1 l2 -> subsequence (x :: l1) (x :: l2)
| subsequence_drop x l1 l2 : subsequence l1 l2 -> subsequence l1 (x :: l2).

(** Ascending by ordinal comparison of strings, with no two equal. *)
Definition string_lt (s t : jsstring) : Prop := jsstring_ltb s t = true.

(** What the facet claim says of an option list for a field of a dataset:
    its members are exactly the strings that occur in that field, missing
    values left out, in strictly ascending order. *)
Definition facet_of_present_values
    (options : list (value jsstring)) (column : list (value jsstring)) : Prop :=
  exists strings : list jsstring,
    options = map Present strings /\
    (forall s, In s strings <-> In (Present s) column) /\
    StronglySorted string_lt strings.

(** The order in which [sort] leaves its elements. *)
Definition sort_le (x y : value jsstring) : Prop := SortCompare_le x y = true.

(** What holds of an option list in general: it lists each value of the
    column once, a missing value being a value like any other, in the order
    of [sort]. *)
Definition facet_of_all_values
    (options : list (value jsstring)) (column : list (value jsstring)) : Prop :=
  (forall v, In v options <-> In v column) /\
  NoDup options /\
  StronglySorted sort_le options.

(** Null and undefined taken as one value. *)
Definition collapse_missing (v : value jsstring) : value jsstring :=
  match v with
  | Null => Undefined
  | _ => v
  end.

(** [l] lists each value of [column] once. *)
Definition lists_distinct_values {A : Type} (l column : list A) : Prop :=
  NoDup l /\ forall v, In v l <-> In v column.

End Spec.

(* ================================================================== *)
(** * A platform to run examples on *)

Module Reference.
Import JS App.

(** Case mapping of Basic Latin and Latin-1 letters; other code units are
    left as they are. *)
Definition lower_unit (c : N) : N :=
  if ((65 <=? c) && (c <=? 90))%N then (c + 32)%N
  else if ((192 <=? c) && (c <=? 222) && negb (c =? 215))%N then (c + 32)%N
  else c.

Definition latin_toLowerCase (s : jsstring) : jsstring := map lower_unit s.

(** Numbers as exact rationals. *)
Definition Qc_of_nat (n : nat) : Qc := Q2Qc (inject_Z (Z.of_nat n)).

Definition Qc_truthy (x : Qc) : bool := negb (Qeq_bool x 0).

Definition Qc_scaled_round (x : Qc) (f : nat) : bool * N :=
  let scaled := Qmult (Qabs x) (inject_Z (10 ^ Z.of_nat f)) in
  (match Qcompare x 0 with Lt => true | _ => false end,
   Z.to_N (Qfloor (Qplus scaled (1 # 2)))).

(** The fraction digits of a currency as the engine resolves them: for the
    Colombian peso [resolvedOptions()] reports 0 and 0. *)
Definition minor_unit (code : jsstring) : nat :=
  if jsstring_eqb code (str "COP") then 0
  else if jsstring_eqb code (str "JPY") then 0
  else if jsstring_eqb code (str "CLP") then 0
  else 2.

(** Digits written in the es-CO manner: the peso sign and a no-break space,
    groups of three separated by a full stop, a comma before the fraction. *)
Definition digit_unit (d : N) : N := (48 + d)%N.

Fixpoint group_rev (rev_digits : list N) (k : nat) : jsstring :=
  match rev_digits with
  | [] => []
  | d :: rest =>
      match k with
      | O => 46%N :: digit_unit d :: group_rev rest 2
      | S k' => digit_unit d :: group_rev rest k'
      end
  end.

Definition render_es_CO (_ : jsstring) (_ : NumberFormatOptions)
    (parts : NumberParts) : jsstring :=
  (if negative parts then [45%N] else []) ++
  [36%N; 160%N] ++
  rev (group_rev (rev (integerDigits parts)) 3) ++
  match fractionDigits parts with
  | [] => []
  | ds => 44%N :: map digit_unit ds
  end.

Definition platform : Platform :=
  {| toLowerCase := latin_toLowerCase;
     number := Qc;
     num_zero := Q2Qc 0;
     num_add := Qcplus;
     num_div := Qcdiv;
     num_of_nat := Qc_of_nat;
     num_truthy := Qc_truthy;
     num_scaled_round := Qc_scaled_round;
     CurrencyDigits := minor_unit;
     locale_render := render_es_CO |}.

Definition num (z : Z) : @number platform := Q2Qc (inject_Z z).

(** The three records of the specification's example. *)
Definition recordA : @item platform :=
  {| NOMBRE_IES := Present (str "X"); NOMBRE_DEL_PROGRAMA := Undefined;
     DEPARTAMENTO := Present (str "R1"); MUNICIPIO := Undefined;
     VALOR_MATRICULA := Present (num 1000) |}.

Definition recordB : @item platform :=
  {| NOMBRE_IES := Present (str "X"); NOMBRE_DEL_PROGRAMA := Undefined;
     DEPARTAMENTO := Present (str "R2"); MUNICIPIO := Undefined;
     VALOR_MATRICULA := Present (num 2000) |}.

Definition recordC : @item platform :=
  {| NOMBRE_IES := Present (str "Y"); NOMBRE_DEL_PROGRAMA := Undefined;
     DEPARTAMENTO := Present (str "R1"); MUNICIPIO := Undefined;
     VALOR_MATRICULA := Undefined |}.

Definition dataset : list (@item platform) := [recordA; recordB; recordC].

(** A record like B with a tuition of 2001: the mean of A and D is 1500.5,
    which is formatted as 1501. *)
Definition recordD : @item platform :=
  {| NOMBRE_IES := Present (str "X"); NOMBRE_DEL_PROGRAMA := Undefined;
     DEPARTAMENTO := Present (str "R2"); MUNICIPIO := Undefined;
     VALOR_MATRICULA := Present (num 2001) |}.

(** A record with no column at all, and one whose columns are [null]. *)
Definition blank : @item platform :=
  {| NOMBRE_IES := Undefined; NOMBRE_DEL_PROGRAMA := Undefined;
     DEPARTAMENTO := Undefined; MUNICIPIO := Undefined;
     VALOR_MATRICULA := Undefined |}.

Definition nulls : @item platform :=
  {| NOMBRE_IES := Null; NOMBRE_DEL_PROGRAMA := Null;
     DEPARTAMENTO := Null; MUNICIPIO := Null;
     VALOR_MATRICULA := Null |}.

End Reference.

(* ================================================================== *)
(** * The rest of the component: loading, screens, the clear button *)

Module Page.
Import JS App.

(** A string is truthy when it is not empty. *)
Definition string_truthy (s : jsstring) : bool := negb (jsstring_eqb s []).

(** [a || b] on strings. *)
Definition string_or (a b : jsstring) : jsstring :=
  if string_truthy a then a else b.

(** The condition that guards the clear button:
    [searchTerm || selectedUniversity || selectedDepartment || selectedProgram]. *)
Definition clearButtonShown (st : FilterState) : bool :=
  string_truthy
    (string_or
       (string_or
          (string_or (searchTerm st) (selectedUniversity st))
          (selectedDepartment st))
       (selectedProgram st)).

(** What an awaited call or a library call gives: a value, or a thrown
    [Error] of which the handler reads the message. *)
Inductive outcome (A : Type) : Type :=
| Returns : A -> outcome A
| Rejects : jsstring -> outcome A.

Arguments Returns {A} _.
Arguments Rejects {A} _.

Definition and_then {A B} (c : outcome A) (k : A -> outcome B) : outcome B :=
  match c with
  | Returns a => k a
  | Rejects message => Rejects message
  end.

(** The three things a render can return. *)
Inductive Screen : Type :=
| LoadingScreen
| ErrorScreen (message : value jsstring)
| MainScreen.

Section Component.
Context {P : Platform}.
Variables ArrayBuffer Worksheet : Type.

(** What [fetch] resolves to, as far as [loadData] reads it. *)
Record Response : Type := {
  ok : bool;
  arrayBuffer : outcome ArrayBuffer
}.

(** What [XLSX.read] returns, as far as [loadData] reads it. *)
Record Workbook : Type := {
  SheetNames : list jsstring;
  Sheets : jsstring -> value Worksheet
}.

(** The calls that leave the component. *)
Record World : Type := {
  fetch : jsstring -> outcome Response;
  XLSX_read : ArrayBuffer -> outcome Workbook;
  sheet_to_json : value Worksheet -> outcome (list item)
}.

(** The [useState] cells of the component. *)
Record ComponentState : Type := {
  data : list item;
  loading : bool;
  error : value jsstring;
  filters : FilterState
}.

Definition initialComponent : ComponentState :=
  {| data := []; loading := true; error := Null; filters := initialState |}.

Definition setData (rows : list item) (st : ComponentState) : ComponentState :=
  {| data := rows; loading := loading st; error := error st;
     filters := filters st |}.

Definition setLoading (b : bool) (st : ComponentState) : ComponentState :=
  {| data := data st; loading := b; error := error st;
     filters := filters st |}.

Definition setError (e : jsstring) (st : ComponentState) : ComponentState :=
  {| data := data st; loading := loading st; error := Present e;
     filters := filters st |}.

(** [workbook.Sheets[workbook.SheetNames[0]]]: the first name, or
    [undefined] when there is none, is the property key. *)
Definition first_sheet (workbook : Workbook) : value Worksheet :=
  Sheets workbook
    (ToString
       match SheetNames workbook with
       | name :: _ => Present name
       | [] => Undefined
       end).

(** The body of the [try] block, up to the rows. *)
Definition load_rows (w : World) : outcome (list item) :=
  and_then (fetch w (str "/ESP_TOC.xlsx")) (fun response =>
  if negb (ok response)
  then Rejects (str "No se pudo cargar el archivo ESP_TOC.xlsx")
  else
    and_then (arrayBuffer response) (fun buffer =>
    and_then (XLSX_read w buffer) (fun workbook =>
    sheet_to_json w (first_sheet workbook)))).

(** [loadData]: the [try] block and its [catch]. *)
Definition loadData (w : World) (st : ComponentState) : ComponentState :=
  match load_rows w with
  | Returns jsonData => setLoading false (setData jsonData st)
  | Rejects message =>
      setLoading false
        (setError (str "Error al cargar el archivo: " ++ message) st)
  end.

(** [if (error)]: [null] and the empty string are falsy. *)
Definition error_truthy (e : value jsstring) : bool :=
  match e with
  | Present s => string_truthy s
  | _ => false
  end.

(** The early returns of the render. *)
Definition render (st : ComponentState) : Screen :=
  if loading st then LoadingScreen
  else if error_truthy (error st) then ErrorScreen (error st)
  else MainScreen.

End Component.

(** Two worlds to run examples in: the file is not served; the file is
    served and decodes to the three records of the example. *)
Definition world_not_found : @World Reference.platform unit unit :=
  {| fetch := fun _ => Returns {| ok := false; arrayBuffer := Returns tt |};
     XLSX_read := fun _ => Rejects (str "unreachable");
     sheet_to_json := fun _ => Rejects (str "unreachable") |}.

Definition world_example : @World Reference.platform unit unit :=
  {| fetch := fun _ => Returns {| ok := true; arrayBuffer := Returns tt |};
     XLSX_read := fun _ =>
       Returns {| SheetNames := [str "Hoja1"];
                  Sheets := fun _ => Present tt |};
     sheet_to_json := fun _ => Returns Reference.dataset |}.

End Page.

Import JS App Spec.

(* ================================================================== *)
(** * Strings *)

Lemma jsstring_eqb_eq (s t : jsstring) : jsstring_eqb s t = true <-> s = t.
Proof.
  revert t; induction s as [|c s IH]; intros [|d t]; simpl; split;
    try discriminate; try reflexivity.
  - intros H. apply andb_true_iff in H as [Hc Hs].
    apply N.eqb_eq in Hc. apply IH in Hs. now subst.
  - intros H. injection H as -> ->.
    apply andb_true_iff. split; [apply N.eqb_refl | now apply IH].
Qed.

Lemma jsstring_eqb_refl (s : jsstring) : jsstring_eqb s s = true.
Proof. now apply jsstring_eqb_eq. Qed.

Lemma jsstring_eqb_neq (s t : jsstring) : jsstring_eqb s t = false <-> s <> t.
Proof.
  split.
  - intros H E. apply jsstring_eqb_eq in E. congruence.
  - intros H. destruct (jsstring_eqb s t) eqn:E; [|reflexivity].
    apply jsstring_eqb_eq in E. contradiction.
Qed.

Lemma startsWith_prefix (s t : jsstring) :
  startsWith s t = true <-> exists post, s = t ++ post.
Proof.
  revert s; induction t as [|d t IH]; intros s; simpl.
  - split; [intros _; now exists s | intros _; now destruct s].
  - destruct s as [|c s].
    + split; [discriminate | intros [post H]; discriminate].
    + simpl. rewrite andb_true_iff, N.eqb_eq, IH. split.
      * intros [-> [post ->]]. now exists post.
      * intros [post H]. injection H as -> ->. split; [reflexivity | now exists post].
Qed.

(** [includes] is the substring relation. *)
Lemma includes_substring (s t : jsstring) :
  includes s t = true <-> exists pre post, s = pre ++ t ++ post.
Proof.
  induction s as [|c s IH].
  - cbn [includes]. rewrite orb_false_r, startsWith_prefix. split.
    + intros [post H]. now exists [], post.
    + intros [pre [post H]]. destruct pre; [now exists post | discriminate].
  - cbn [includes]. rewrite orb_true_iff, startsWith_prefix, IH. split.
    + intros [[post H] | [pre [post H]]].
      * now exists [], post.
      * exists (c :: pre), post. now rewrite H.
    + intros [[|x pre] [post H]].
      * left. now exists post.
      * right. injection H as -> ->. now exists pre, post.
Qed.

Lemma jsstring_ltb_irrefl (s : jsstring) : jsstring_ltb s s = false.
Proof.
  induction s as [|c s IH]; [reflexivity|].
  simpl. now rewrite N.ltb_irrefl.
Qed.

Lemma jsstring_ltb_trans (s t u : jsstring) :
  jsstring_ltb s t = true -> jsstring_ltb t u = true -> jsstring_ltb s u = true.
Proof.
  revert t u; induction s as [|a s IH]; intros [|b t] [|c u]; simpl;
    try discriminate; try reflexivity.
  destruct (N.ltb_spec a b), (N.ltb_spec b a), (N.ltb_spec b c),
    (N.ltb_spec c b), (N.ltb_spec a c), (N.ltb_spec c a);
    try discriminate; try reflexivity; try lia.
  apply IH.
Qed.

Lemma jsstring_ltb_trichotomy (s t : jsstring) :
  jsstring_ltb s t = false -> jsstring_ltb t s = false -> s = t.
Proof.
  revert t; induction s as [|a s IH]; intros [|b t]; simpl;
    try discriminate; try reflexivity.
  destruct (N.ltb_spec a b), (N.ltb_spec b a); try discriminate; try lia.
  intros H1 H2. assert (a = b) by lia. subst. f_equal. now apply IH.
Qed.

Lemma jsstring_ltb_asym (s t : jsstring) :
  jsstring_ltb s t = true -> jsstring_ltb t s = false.
Proof.
  intros H. destruct (jsstring_ltb t s) eqn:E; [|reflexivity].
  pose proof (jsstring_ltb_trans _ _ _ H E) as C.
  now rewrite jsstring_ltb_irrefl in C.
Qed.

(* ================================================================== *)
(** * The filtered view *)

Section FilterFacts.
Context {P : Platform}.

Lemma field_includes_normal (field : value jsstring) (term : jsstring) :
  exists v, field_includes field term = Normal v /\
            truthy v = field_matches term field.
Proof.
  destruct field as [| |s]; cbn.
  - now exists Undefined.
  - now exists Undefined.
  - now eexists.
Qed.

Lemma logical_or_normal (a b : completion (value bool)) (x y : bool) :
  (exists v, a = Normal v /\ truthy v = x) ->
  (exists v, b = Normal v /\ truthy v = y) ->
  exists v, logical_or a b = Normal v /\ truthy v = x || y.
Proof.
  intros [v [-> Hv]] [w [-> Hw]]. unfold logical_or; cbn.
  destruct (truthy v) eqn:E; subst x.
  - exists v. now rewrite E.
  - exists w. now rewrite Hw.
Qed.

Lemma matchesSearch_normal (st : FilterState) (it : item) :
  exists v, matchesSearch st it = Normal v /\
            truthy v = search_holds (searchTerm st) it.
Proof.
  unfold matchesSearch, search_holds. cbn [existsb].
  rewrite orb_false_r, !orb_assoc.
  repeat apply logical_or_normal; try apply field_includes_normal.
  now eexists.
Qed.

Lemma selection_strict_eq (selection : jsstring) (field : value jsstring) :
  jsstring_eqb selection [] || strict_eq field selection
  = selection_holds selection field.
Proof. reflexivity. Qed.

Lemma truthy_logical_and (a b : value bool) :
  truthy (logical_and a b) = truthy a && truthy b.
Proof.
  unfold logical_and. destruct (truthy a) eqn:E; [reflexivity | exact E].
Qed.

Lemma filter_callback_normal (st : FilterState) (it : item) :
  exists v, filter_callback st it = Normal v /\
            truthy v = record_matches st it.
Proof.
  unfold filter_callback.
  destruct (matchesSearch_normal st it) as [v [-> Hv]]. cbn [bind].
  eexists. split; [reflexivity|].
  rewrite !truthy_logical_and, Hv. reflexivity.
Qed.

Lemma Array_filter_normal {A} (f : A -> completion (value bool)) (p : A -> bool)
    (l : list A) :
  (forall x, exists v, f x = Normal v /\ truthy v = p x) ->
  Array_filter f l = Normal (filter p l).
Proof.
  intros Hf. induction l as [|x l IH]; [reflexivity|].
  cbn. destruct (Hf x) as [v [-> Hv]]. cbn. rewrite IH. cbn.
  now rewrite Hv.
Qed.

(** The filtered view never raises, and it is the sublist of the records
    on which the four predicates hold. *)
Lemma filteredData_filter (data : list item) (st : FilterState) :
  filteredData data st = Normal (filter (record_matches st) data).
Proof.
  apply Array_filter_normal. intros it. apply filter_callback_normal.
Qed.

Lemma field_matches_iff (term : jsstring) (field : value jsstring) :
  field_matches term field = true <->
  exists s, field = Present s /\ is_substring (toLowerCase term) (toLowerCase s).
Proof.
  destruct field as [| |s]; cbn.
  - split; [discriminate | intros [s [H _]]; discriminate].
  - split; [discriminate | intros [s [H _]]; discriminate].
  - rewrite includes_substring. split.
    + intros H. now exists s.
    + intros [s' [H Hs]]. now injection H as ->.
Qed.

Lemma search_holds_iff (term : jsstring) (it : item) :
  search_holds term it = true <-> search_as_specified term it.
Proof.
  unfold search_holds, search_as_specified.
  rewrite orb_true_iff, jsstring_eqb_eq, existsb_exists.
  split; (intros [H | H]; [now left | right]).
  - destruct H as [field [Hin Hm]]. apply field_matches_iff in Hm as [s [-> Hs]].
    now exists (Present s), s.
  - destruct H as [field [s [Hin [-> Hs]]]]. exists (Present s).
    split; [assumption|]. apply field_matches_iff. now exists s.
Qed.

Lemma selection_holds_iff (selection : jsstring) (field : value jsstring) :
  selection_holds selection field = true <-> selection_as_specified selection field.
Proof.
  unfold selection_holds, selection_as_specified.
  rewrite orb_true_iff, jsstring_eqb_eq.
  split; (intros [H | H]; [now left | right]).
  - destruct field as [| |s]; try discriminate.
    apply jsstring_eqb_eq in H. now subst.
  - subst. apply jsstring_eqb_refl.
Qed.

Lemma record_matches_iff (st : FilterState) (it : item) :
  record_matches st it = true <-> matches_as_specified st it.
Proof.
  unfold record_matches, matches_as_specified.
  rewrite !andb_true_iff, search_holds_iff, !selection_holds_iff. tauto.
Qed.

End FilterFacts.

(** ** Subsequences *)

Lemma subsequence_refl {A} (l : list A) : subsequence l l.
Proof. induction l; constructor; assumption. Qed.

Lemma subsequence_filter_implies {A} (p q : A -> bool) (l : list A) :
  (forall x, p x = true -> q x = true) ->
  subsequence (filter p l) (filter q l).
Proof.
  intros Hpq. induction l as [|x l IH]; cbn; [constructor|].
  destruct (p x) eqn:Ep.
  - rewrite (Hpq x Ep). now constructor.
  - destruct (q x); [now constructor | assumption].
Qed.

Lemma subsequence_filter {A} (p : A -> bool) (l : list A) :
  subsequence (filter p l) l.
Proof.
  induction l as [|x l IH]; cbn; [constructor|].
  destruct (p x); now constructor.
Qed.

Lemma subsequence_length {A} (l1 l2 : list A) :
  subsequence l1 l2 -> length l1 <= length l2.
Proof. induction 1; cbn; lia. Qed.

Lemma subsequence_In {A} (l1 l2 : list A) :
  subsequence l1 l2 -> forall x, In x l1 -> In x l2.
Proof.
  induction 1; cbn; intros y Hy; [assumption | | right; now apply IHsubsequence].
  destruct Hy as [-> | Hy]; [now left | right; now apply IHsubsequence].
Qed.

(** A subsequence repeats no position: an element occurs in it at most as
    often as in the list it is taken from. *)
Lemma subsequence_count {A} (eq_dec : forall x y : A, {x = y} + {x <> y})
    (l1 l2 : list A) :
  subsequence l1 l2 ->
  forall x, count_occ eq_dec l1 x <= count_occ eq_dec l2 x.
Proof.
  induction 1; intros y; cbn; [lia | | ].
  - destruct (eq_dec x y); specialize (IHsubsequence y); lia.
  - destruct (eq_dec x y); specialize (IHsubsequence y); lia.
Qed.

(** ** The filter state *)

Lemma clearFilters_initial (st : FilterState) : clearFilters st = initialState.
Proof. reflexivity. Qed.

Lemma filter_all {A} (p : A -> bool) (l : list A) :
  (forall x, p x = true) -> filter p l = l.
Proof.
  intros H. induction l as [|x l IH]; cbn; [reflexivity|].
  now rewrite H, IH.
Qed.

Lemma record_matches_initial {P : Platform} (it : item) :
  record_matches initialState it = true.
Proof. reflexivity. Qed.

(* ================================================================== *)
(** * The query engine: claims *)

(** C1.  A record is in the output of the filter iff it is in the dataset
    and the four predicates hold together: the search term is empty or its
    lowercase form is a substring of the lowercased value of one of the four
    text fields that is present, and each selection is empty or equal to the
    record's field.  On the three-record example the term "r1" keeps A and C
    and drops B. *)
Theorem filteredData_iff_four_predicates :
  (forall (P : Platform) (data : list item) (st : FilterState),
      exists out,
        filteredData data st = Normal out /\
        forall it, In it out <-> In it data /\ matches_as_specified st it) /\
  filteredData Reference.dataset (setSearchTerm (str "r1") initialState)
  = Normal [Reference.recordA; Reference.recordC].
Proof.
  split.
  - intros P data st. exists (filter (record_matches st) data).
    split; [apply filteredData_filter|].
    intros it. now rewrite filter_In, record_matches_iff.
  - now rewrite filteredData_filter.
Qed.

(** C3.  The output of the filter is an order-preserving subsequence of the
    dataset: it is obtained by dropping records, so none is added, none is
    repeated and the order of those kept is that of the dataset. *)
Theorem filteredData_subsequence :
  forall (P : Platform) (data : list item) (st : FilterState),
    exists out,
      filteredData data st = Normal out /\
      subsequence out data /\
      length out <= length data /\
      (forall it, In it out -> In it data).
Proof.
  intros P data st. exists (filter (record_matches st) data).
  pose proof (subsequence_filter (record_matches st) data) as Hs.
  split; [apply filteredData_filter|].
  split; [exact Hs|].
  split; [now apply subsequence_length | now apply subsequence_In].
Qed.

(** C5.  With every field of the filter state empty the filter returns the
    dataset itself, in order; [clearFilters] produces that state whatever
    the state was, so after any sequence of user actions the clear button
    brings back the full dataset. *)
Theorem filteredData_empty_state_identity :
  forall (P : Platform) (data : list item),
    (forall st : FilterState,
        searchTerm st = [] -> selectedUniversity st = [] ->
        selectedDepartment st = [] -> selectedProgram st = [] ->
        filteredData data st = Normal data) /\
    (forall st : FilterState,
        clearFilters st = initialState /\
        filteredData data (clearFilters st) = Normal data) /\
    (forall (st : FilterState) (actions : list UserAction),
        filteredData data (run st (actions ++ [ClickClear])) = Normal data).
Proof.
  intros P data.
  assert (H0 : filteredData data initialState = Normal data).
  { rewrite filteredData_filter. f_equal. apply filter_all.
    intros it. apply record_matches_initial. }
  split; [|split].
  - intros [t u d p]; cbn; intros -> -> -> ->. exact H0.
  - intros st. now rewrite clearFilters_initial.
  - intros st actions. unfold run. rewrite fold_left_app. cbn.
    now rewrite clearFilters_initial.
Qed.

Lemma filteredData_empty_state_identity_witness :
  filteredData Reference.dataset initialState = Normal Reference.dataset.
Proof.
  apply (proj1 (filteredData_empty_state_identity Reference.dataset));
    reflexivity.
Defined.

(** C10.  Filtering is monotone in each facet: with the other fields
    unchanged, the view under any value of one selection is a subsequence of
    the view under the empty selection. *)
Theorem filteredData_facet_monotone :
  forall (P : Platform) (data : list item) (st : FilterState) (v : jsstring),
    (exists narrow wide,
        filteredData data (setSelectedUniversity v st) = Normal narrow /\
        filteredData data (setSelectedUniversity [] st) = Normal wide /\
        subsequence narrow wide) /\
    (exists narrow wide,
        filteredData data (setSelectedDepartment v st) = Normal narrow /\
        filteredData data (setSelectedDepartment [] st) = Normal wide /\
        subsequence narrow wide) /\
    (exists narrow wide,
        filteredData data (setSelectedProgram v st) = Normal narrow /\
        filteredData data (setSelectedProgram [] st) = Normal wide /\
        subsequence narrow wide).
Proof.
  intros P data st v.
  repeat split;
    (do 2 eexists;
     split; [apply filteredData_filter|];
     split; [apply filteredData_filter|];
     apply subsequence_filter_implies; intros it;
     unfold record_matches; cbn;
     rewrite !andb_true_iff; tauto).
Qed.

(* ================================================================== *)
(** * Sets and sorting *)

Lemma SameValueZero_eq (x y : value jsstring) :
  SameValueZero x y = true <-> x = y.
Proof.
  destruct x as [| |s], y as [| |t]; cbn; split;
    try discriminate; try reflexivity.
  - intros H. apply jsstring_eqb_eq in H. now subst.
  - intros H. injection H as ->. apply jsstring_eqb_refl.
Qed.

Lemma Set_has_In (s : list (value jsstring)) (v : value jsstring) :
  Set_has s v = true <-> In v s.
Proof.
  unfold Set_has. rewrite existsb_exists. split.
  - intros [x [Hin Hx]]. apply SameValueZero_eq in Hx. now subst.
  - intros Hin. exists v. split; [assumption | now apply SameValueZero_eq].
Qed.

Lemma Set_add_In (s : list (value jsstring)) (v x : value jsstring) :
  In x (Set_add s v) <-> In x s \/ x = v.
Proof.
  unfold Set_add. destruct (Set_has s v) eqn:E.
  - apply Set_has_In in E. split; [now left | intros [H | ->]; assumption].
  - rewrite in_app_iff. cbn. split.
    + intros [H | [H | []]]; [now left | now right].
    + intros [H | ->]; [now left | right; now left].
Qed.

Lemma Set_add_NoDup (s : list (value jsstring)) (v : value jsstring) :
  NoDup s -> NoDup (Set_add s v).
Proof.
  intros Hs. unfold Set_add. destruct (Set_has s v) eqn:E; [assumption|].
  assert (Hv : ~ In v s).
  { intros Hin. apply Set_has_In in Hin. congruence. }
  clear E. induction Hs as [|y s Hy Hs IH]; cbn.
  - constructor; [intros [] | constructor].
  - constructor.
    + rewrite in_app_iff. cbn. intros [H | [H | []]]; [contradiction|].
      apply Hv. now left.
    + apply IH. intros H. apply Hv. now right.
Qed.

Lemma fold_Set_add (l acc : list (value jsstring)) :
  NoDup acc ->
  NoDup (fold_left Set_add l acc) /\
  forall x, In x (fold_left Set_add l acc) <-> In x acc \/ In x l.
Proof.
  revert acc; induction l as [|v l IH]; intros acc Hacc; cbn.
  - split; [assumption | intros x; tauto].
  - destruct (IH (Set_add acc v) (Set_add_NoDup v Hacc)) as [Hnd Hin].
    split; [assumption|].
    intros x. rewrite Hin, Set_add_In. split.
    + intros [[H | ->] | H]; auto.
    + intros [H | [<- | H]]; auto.
Qed.

(** [new Set(column)] holds each value of the column once. *)
Lemma new_Set_distinct (column : list (value jsstring)) :
  lists_distinct_values (new_Set column) column.
Proof.
  destruct (fold_Set_add column (NoDup_nil _)) as [Hnd Hin].
  split; [exact Hnd|].
  intros v. unfold new_Set. rewrite Hin. cbn. tauto.
Qed.

(** Two lists of the distinct values of one column have the same length. *)
Lemma lists_distinct_values_length {A} (l1 l2 column : list A) :
  lists_distinct_values l1 column -> lists_distinct_values l2 column ->
  length l1 = length l2.
Proof.
  intros [N1 I1] [N2 I2]. apply Permutation_length.
  apply NoDup_Permutation; try assumption.
  intros x. now rewrite I1, I2.
Qed.

Lemma SortCompare_le_total (x y : value jsstring) :
  SortCompare_le x y = false -> SortCompare_le y x = true.
Proof.
  destruct x as [| |s], y as [| |t]; cbv beta iota delta [SortCompare_le];
    try discriminate; try reflexivity;
    intros H; apply negb_false_iff in H; apply jsstring_ltb_asym in H;
    now rewrite H.
Qed.

Lemma string_le_trans (s t u : jsstring) :
  jsstring_ltb t s = false -> jsstring_ltb u t = false -> jsstring_ltb u s = false.
Proof.
  intros H1 H2. destruct (jsstring_ltb u s) eqn:E; [|reflexivity].
  destruct (jsstring_ltb s t) eqn:Est.
  - pose proof (jsstring_ltb_trans _ _ _ E Est). congruence.
  - pose proof (jsstring_ltb_trichotomy _ _ Est H1). subst. congruence.
Qed.

Lemma sort_le_trans (x y z : value jsstring) :
  sort_le x y -> sort_le y z -> sort_le x z.
Proof.
  unfold sort_le.
  destruct x as [| |s], y as [| |t], z as [| |u];
    cbv beta iota delta [SortCompare_le];
    try discriminate; try reflexivity;
    rewrite !negb_true_iff; apply string_le_trans.
Qed.

Lemma sort_insert_Permutation (x : value jsstring) (l : list (value jsstring)) :
  Permutation (x :: l) (sort_insert x l).
Proof.
  induction l as [|y l IH]; cbn; [reflexivity|].
  destruct (SortCompare_le x y); [reflexivity|].
  rewrite perm_swap. now constructor.
Qed.

Lemma Array_sort_Permutation (l : list (value jsstring)) :
  Permutation l (Array_sort l).
Proof.
  induction l as [|x l IH]; cbn; [constructor|].
  rewrite <- sort_insert_Permutation. now constructor.
Qed.

Lemma sort_insert_Sorted (x : value jsstring) (l : list (value jsstring)) :
  Sorted sort_le l -> Sorted sort_le (sort_insert x l).
Proof.
  induction 1 as [|y l Hl IH Hhd]; cbn.
  - repeat constructor.
  - destruct (SortCompare_le x y) eqn:E.
    + constructor; [now constructor | now constructor].
    + constructor; [assumption|].
      apply SortCompare_le_total in E.
      destruct l as [|z l]; cbn.
      * now constructor.
      * destruct (SortCompare_le x z); constructor; try assumption.
        now inversion Hhd.
Qed.

Lemma Array_sort_StronglySorted (l : list (value jsstring)) :
  StronglySorted sort_le (Array_sort l).
Proof.
  apply Sorted_StronglySorted.
  - intros x y z. apply sort_le_trans.
  - induction l as [|x l IH]; cbn; [constructor | now apply sort_insert_Sorted].
Qed.

(** A facet list: the distinct values of the column, sorted. *)
Lemma facet_list_all_values (column : list (value jsstring)) :
  facet_of_all_values (Array_sort (spread (new_Set column))) column.
Proof.
  unfold spread. destruct (new_Set_distinct column) as [Hnd Hin].
  pose proof (Array_sort_Permutation (new_Set column)) as Hp.
  split; [|split].
  - intros v. rewrite <- Hin. split; apply Permutation_in;
      [now apply Permutation_sym | assumption].
  - now apply (Permutation_NoDup Hp).
  - apply Array_sort_StronglySorted.
Qed.

(** When no value is missing, the list is one of strings in strictly
    ascending order. *)
Lemma present_options_strictly_sorted (options : list (value jsstring)) :
  (forall v, In v options -> nullish v = false) ->
  NoDup options -> StronglySorted sort_le options ->
  exists strings,
    options = map Present strings /\ StronglySorted string_lt strings.
Proof.
  intros Hp Hnd Hs. induction Hs as [|x l Hl IH Hx].
  - exists []. split; constructor.
  - inversion Hnd as [|? ? Hnotin Hnd']; subst.
    destruct IH as [strings [-> Hsorted]];
      [intros v Hv; apply Hp; now right | assumption |].
    destruct x as [| |s];
      try (specialize (Hp _ (or_introl eq_refl)); discriminate).
    exists (s :: strings). split; [reflexivity|].
    constructor; [assumption|].
    rewrite Forall_forall in *. intros t Ht.
    specialize (Hx (Present t) (in_map _ _ _ Ht)).
    unfold sort_le in Hx. cbn in Hx. apply negb_true_iff in Hx.
    unfold string_lt. destruct (jsstring_ltb s t) eqn:E; [reflexivity|].
    exfalso. apply Hnotin.
    rewrite (jsstring_ltb_trichotomy _ _ E Hx). now apply in_map.
Qed.

Lemma facet_list_present_values (column : list (value jsstring)) :
  (forall v, In v column -> nullish v = false) ->
  facet_of_present_values (Array_sort (spread (new_Set column))) column.
Proof.
  intros Hp. destruct (facet_list_all_values column) as [Hin [Hnd Hs]].
  destruct (@present_options_strictly_sorted
              (Array_sort (spread (new_Set column)))) as [strings [E Hsorted]];
    try assumption.
  { intros v Hv. apply Hp. now apply Hin. }
  exists strings. split; [exact E|]. split; [|exact Hsorted].
  intros s. rewrite <- Hin, E. split.
  - now apply in_map.
  - intros H. apply in_map_iff in H as [t [Ht Hin']]. now injection Ht as <-.
Qed.

Lemma undefined_is_last (options : list (value jsstring)) :
  NoDup options -> StronglySorted sort_le options ->
  forall before after, options = before ++ Undefined :: after -> after = [].
Proof.
  intros Hnd Hs before after E. subst options.
  apply NoDup_remove_2 in Hnd.
  assert (Hu : StronglySorted sort_le (Undefined :: after)).
  { clear Hnd. induction before as [|x before IH]; [assumption|].
    apply IH. now inversion Hs. }
  destruct after as [|y after]; [reflexivity|]. exfalso.
  inversion Hu as [|? ? _ Hall]; subst.
  inversion Hall as [|? ? Hy _]; subst.
  destruct y; try discriminate Hy.
  apply Hnd. rewrite in_app_iff. right. now left.
Qed.

(* ================================================================== *)
(** * The facet index: claims *)

(** C2, as stated, fails: on the three records of the example, none of which
    has a program name, the program options are the single entry
    [undefined], which is not a list of the strings present. *)
Lemma programs_example_not_present_values :
  ~ facet_of_present_values
      (programs Reference.dataset)
      (map NOMBRE_DEL_PROGRAMA Reference.dataset).
Proof.
  intros [strings [E _]]. destruct strings; discriminate E.
Qed.

(** C2, amended.  For each facet field the option list holds every distinct
    value that the field takes across the records of the full dataset, once
    each, a missing value ([undefined], or [null]) being an entry of its
    own; the entries are in the order of [sort], that is ascending by
    ordinal comparison of their string forms with [undefined] last; the
    lists are functions of the dataset alone.  When no record lacks the
    field, the list is the strictly ascending list of the strings present. *)
Theorem facet_options_distinct_sorted :
  forall (P : Platform) (data : list item),
    (facet_of_all_values (universities data) (map NOMBRE_IES data) /\
     facet_of_all_values (departments data) (map DEPARTAMENTO data) /\
     facet_of_all_values (programs data) (map NOMBRE_DEL_PROGRAMA data)) /\
    (forall options before after,
        In options [universities data; departments data; programs data] ->
        options = before ++ Undefined :: after -> after = []) /\
    ((forall v, In v (map NOMBRE_IES data) -> nullish v = false) ->
     facet_of_present_values (universities data) (map NOMBRE_IES data)) /\
    ((forall v, In v (map DEPARTAMENTO data) -> nullish v = false) ->
     facet_of_present_values (departments data) (map DEPARTAMENTO data)) /\
    ((forall v, In v (map NOMBRE_DEL_PROGRAMA data) -> nullish v = false) ->
     facet_of_present_values (programs data) (map NOMBRE_DEL_PROGRAMA data)).
Proof.
  intros P data.
  pose proof (facet_list_all_values (map NOMBRE_IES data)) as Hu.
  pose proof (facet_list_all_values (map DEPARTAMENTO data)) as Hd.
  pose proof (facet_list_all_values (map NOMBRE_DEL_PROGRAMA data)) as Hp.
  split; [exact (conj Hu (conj Hd Hp))|].
  split.
  - intros options before after [<- | [<- | [<- | []]]];
      [destruct Hu as [_ [N S]] | destruct Hd as [_ [N S]]
       | destruct Hp as [_ [N S]]];
      now apply undefined_is_last.
  - repeat split; apply facet_list_present_values.
Qed.

Lemma facet_options_distinct_sorted_witness :
  facet_of_present_values
    (universities Reference.dataset) (map NOMBRE_IES Reference.dataset).
Proof.
  apply (proj1 (proj2 (proj2
    (facet_options_distinct_sorted Reference.dataset)))).
  intros v [<- | [<- | [<- | []]]]; reflexivity.
Defined.

(* ================================================================== *)
(** * The aggregator: claims *)

Section StatsFacts.
Context {P : Platform}.

Lemma avgMatricula_nonempty (view : list item) :
  view <> [] ->
  avgMatricula (stats view)
  = num_div (sum_matricula view) (num_of_nat (length view)).
Proof. destruct view; [contradiction | reflexivity]. Qed.

Lemma fold_matricula_tuition (view : list item) (acc : number) :
  Forall falsy_tuition_is_zero view ->
  fold_left (fun sum it => num_add sum (matricula_or_zero (VALOR_MATRICULA it)))
    view acc
  = fold_left (fun sum it => num_add sum (tuition_or_zero it)) view acc.
Proof.
  intros H. revert acc. induction H as [|it view Hit _ IH]; intros acc; cbn;
    [reflexivity|].
  rewrite <- IH. do 2 f_equal.
  unfold matricula_or_zero, tuition_or_zero.
  destruct (VALOR_MATRICULA it) as [| |n] eqn:E; try reflexivity.
  destruct (num_truthy n) eqn:T; [reflexivity|].
  symmetry. now apply Hit.
Qed.

Lemma sum_matricula_snoc (view : list item) (it : item) :
  sum_matricula (view ++ [it])
  = num_add (sum_matricula view) (matricula_or_zero (VALOR_MATRICULA it)).
Proof. unfold sum_matricula. now rewrite fold_left_app. Qed.

Lemma matricula_or_zero_missing (v : value number) :
  nullish v = true -> matricula_or_zero v = num_zero.
Proof. destruct v; [reflexivity | reflexivity | discriminate]. Qed.

End StatsFacts.

(** C4.  On a view that is not empty the mean tuition is the sum of the
    tuitions, a missing one counting as zero, divided by the number of
    records.  On the example, selecting institution "X" gives [A, B], whose
    statistics are 2 programs, 1 institution, 2 regions and a mean of 1500. *)
Theorem avgMatricula_is_sum_over_count :
  (forall (P : Platform) (view : list item),
      view <> [] ->
      Forall falsy_tuition_is_zero view ->
      avgMatricula (stats view)
      = num_div (tuition_sum view) (num_of_nat (length view))) /\
  filteredData Reference.dataset
    (setSelectedUniversity (str "X") initialState)
  = Normal [Reference.recordA; Reference.recordB] /\
  stats [Reference.recordA; Reference.recordB]
  = {| totalPrograms := 2; uniqueUniversities := 1; uniqueDepartments := 2;
       avgMatricula := Reference.num 1500 |}.
Proof.
  split; [|split].
  - intros P view Hne Hz. rewrite avgMatricula_nonempty by assumption.
    unfold sum_matricula, tuition_sum. now rewrite fold_matricula_tuition.
  - now rewrite filteredData_filter.
  - unfold stats. f_equal. apply Qc_is_canon. reflexivity.
Qed.

Lemma avgMatricula_is_sum_over_count_witness :
  avgMatricula (stats Reference.dataset)
  = num_div (tuition_sum Reference.dataset)
      (num_of_nat (length Reference.dataset)).
Proof.
  apply (proj1 avgMatricula_is_sum_over_count Reference.platform).
  - discriminate.
  - repeat constructor; intros n H; try discriminate H;
      injection H as <-; discriminate.
Defined.

(** C6.  The statistics of the empty view are all zero; the mean is the
    literal zero, no division takes place. *)
Theorem stats_empty_view :
  forall P : Platform,
    stats (@nil item)
    = {| totalPrograms := 0; uniqueUniversities := 0; uniqueDepartments := 0;
         avgMatricula := num_zero |}.
Proof. reflexivity. Qed.

(** C8, as stated, fails: of two records, one without institution and
    region and one where they are [null], the collapsed set of institution
    names has one member while the count is two. *)
Lemma uniqueUniversities_null_and_undefined :
  exists members,
    lists_distinct_values members
      (map collapse_missing
         (map NOMBRE_IES [Reference.blank; Reference.nulls])) /\
    uniqueUniversities (stats [Reference.blank; Reference.nulls])
    <> length members.
Proof.
  exists [Undefined]. split; [split|].
  - constructor; [intros [] | constructor].
  - intros v; cbn; tauto.
  - discriminate.
Qed.

(** C8, amended.  The institution count is the number of distinct values of
    the institution field in the view, and the region count that of the
    region field, where [undefined] is one value and [null] is another:
    all the [undefined] count once, and all the [null] count once. *)
Theorem unique_counts_distinct_values :
  forall (P : Platform) (view : list item),
    (exists members, lists_distinct_values members (map NOMBRE_IES view)) /\
    (forall members,
        lists_distinct_values members (map NOMBRE_IES view) ->
        uniqueUniversities (stats view) = length members) /\
    (exists members, lists_distinct_values members (map DEPARTAMENTO view)) /\
    (forall members,
        lists_distinct_values members (map DEPARTAMENTO view) ->
        uniqueDepartments (stats view) = length members).
Proof.
  intros P view. repeat split.
  - eexists. apply new_Set_distinct.
  - intros members H. cbn. unfold Set_size.
    now apply (lists_distinct_values_length (new_Set_distinct _) H).
  - eexists. apply new_Set_distinct.
  - intros members H. cbn. unfold Set_size.
    now apply (lists_distinct_values_length (new_Set_distinct _) H).
Qed.

Lemma unique_counts_distinct_values_witness :
  uniqueUniversities (stats [Reference.blank; Reference.nulls; Reference.blank])
  = length [@Null jsstring; Undefined].
Proof.
  apply (proj1 (proj2 (unique_counts_distinct_values
    [Reference.blank; Reference.nulls; Reference.blank]))).
  split.
  - repeat constructor; cbn; intuition discriminate.
  - intros v; cbn; tauto.
Defined.

(* ================================================================== *)
(** * Missing fields: claims *)

Lemma no_text_field_no_match {P : Platform} (term : jsstring) (it : item) :
  term <> [] -> no_text_field it -> search_holds term it = false.
Proof.
  intros Hterm [H1 [H2 [H3 H4]]]. unfold search_holds.
  apply jsstring_eqb_neq in Hterm. rewrite Hterm. cbn.
  destruct (NOMBRE_IES it), (NOMBRE_DEL_PROGRAMA it), (DEPARTAMENTO it),
    (MUNICIPIO it); try discriminate; reflexivity.
Qed.

Lemma facet_In_column {P : Platform} (field : item -> value jsstring)
    (data : list item) (v : value jsstring) :
  In v (Array_sort (spread (new_Set (map field data)))) <->
  exists r, In r data /\ field r = v.
Proof.
  destruct (facet_list_all_values (map field data)) as [Hin _].
  rewrite Hin, in_map_iff. split; intros [r [H1 H2]]; now exists r.
Qed.

(** C7, as stated, fails in what it says of facet sets: a record without
    region puts the entry [undefined] among the region options. *)
Lemma departments_keep_undefined :
  ~ (forall v,
        In v (departments (Reference.blank :: Reference.dataset)) ->
        nullish v = false).
Proof.
  intros H. specialize (H Undefined). cbn in H.
  discriminate H. right. right. now left.
Qed.

(** C7, amended.  No operation of the query engine, the aggregator or the
    facet index raises on records with missing fields: the filter returns
    normally (the option lists and the statistics are plain functions).  A
    record whose text fields are all missing is never matched by a search
    term that is not empty; a missing tuition adds zero to the sum; and in
    the facet lists a missing value is not left out: it is an entry exactly
    when some record lacks the field. *)
Theorem missing_fields_are_handled :
  forall (P : Platform) (data view : list item) (st : FilterState) (it : item),
    (exists out,
        filteredData data st = Normal out /\
        (searchTerm st <> [] -> no_text_field it -> ~ In it out)) /\
    (nullish (VALOR_MATRICULA it) = true ->
     sum_matricula (view ++ [it]) = num_add (sum_matricula view) num_zero) /\
    (forall v,
        nullish v = true ->
        (In v (universities data) <-> exists r, In r data /\ NOMBRE_IES r = v) /\
        (In v (departments data) <-> exists r, In r data /\ DEPARTAMENTO r = v) /\
        (In v (programs data) <->
         exists r, In r data /\ NOMBRE_DEL_PROGRAMA r = v)).
Proof.
  intros P data view st it. split; [|split].
  - exists (filter (record_matches st) data).
    split; [apply filteredData_filter|].
    intros Hterm Hno Hin. apply filter_In in Hin as [_ Hm].
    unfold record_matches in Hm.
    rewrite (no_text_field_no_match Hterm Hno) in Hm. discriminate Hm.
  - intros Hmissing.
    now rewrite sum_matricula_snoc, matricula_or_zero_missing.
  - intros v _. repeat split; apply facet_In_column.
Qed.

Lemma missing_fields_are_handled_witness :
  exists out,
    filteredData (Reference.blank :: Reference.dataset)
      (setSearchTerm (str "r1") initialState) = Normal out /\
    ~ In Reference.blank out.
Proof.
  destruct (proj1 (missing_fields_are_handled
                     (Reference.blank :: Reference.dataset) []
                     (setSearchTerm (str "r1") initialState)
                     Reference.blank)) as [out [Hout Hno]].
  exists out. split; [exact Hout|].
  apply Hno; [discriminate | repeat split].
Defined.

(* ================================================================== *)
(** * The currency formatter: claims *)

Section FormatFacts.
Context {P : Platform}.

Lemma currency_digit_options :
  SetNumberFormatDigitOptions currencyOptions
  = Normal (0, CurrencyDigits (str "COP")).
Proof.
  unfold SetNumberFormatDigitOptions, currencyOptions.
  cbn [style currency minimumFractionDigits maximumFractionDigits fst snd].
  change (100 <? 0) with false. cbv iota. now rewrite Nat.max_0_r.
Qed.

Lemma fixed_digits_length (f : nat) (r : N) : length (fixed_digits f r) = f.
Proof.
  revert r; induction f as [|f IH]; intros r; cbn; [reflexivity|].
  rewrite length_app, IH. cbn. lia.
Qed.




Lemma formatCurrency_truthy (n : number) :
  num_truthy n = true ->
  NumberFormat_parts currencyOptions n
  = Normal (ToRawFixed n 0 (CurrencyDigits (str "COP"))) /\
  formatCurrency (Present n)
  = Normal (locale_render (str "es-CO") currencyOptions
              (ToRawFixed n 0 (CurrencyDigits (str "COP")))).
Proof.
  intros T.
  assert (E : NumberFormat_parts currencyOptions n
              = Normal (ToRawFixed n 0 (CurrencyDigits (str "COP")))).
  { unfold NumberFormat_parts. now rewrite currency_digit_options. }
  split; [exact E|].
  unfold formatCurrency, NumberFormat_format. now rewrite T, E.
Qed.

End FormatFacts.



(* ================================================================== *)
(** * Further properties of the filtered view *)

Import Page.

Lemma filter_twice {A} (p q : A -> bool) (l : list A) :
  filter q (filter p l) = filter (fun x => p x && q x) l.
Proof.
  induction l as [|x l IH]; cbn; [reflexivity|].
  destruct (p x); cbn; [|assumption].
  destruct (q x); now rewrite IH.
Qed.

Lemma filter_none {A} (p : A -> bool) (l : list A) :
  (forall x, In x l -> p x = false) -> filter p l = [].
Proof.
  induction l as [|x l IH]; cbn; intros H; [reflexivity|].
  rewrite (H x (or_introl eq_refl)). apply IH. intros y Hy. apply H. now right.
Qed.

Section ViewFacts.
Context {P : Platform}.

Lemma search_only_matches (t : jsstring) (it : item) :
  record_matches (setSearchTerm t initialState) it = search_holds t it.
Proof. unfold record_matches. cbn. now rewrite !andb_true_r. Qed.

Lemma university_only_matches (u : jsstring) (it : item) :
  record_matches (setSelectedUniversity u initialState) it
  = selection_holds u (NOMBRE_IES it).
Proof. unfold record_matches. cbn. now rewrite !andb_true_r. Qed.

Lemma department_only_matches (d : jsstring) (it : item) :
  record_matches (setSelectedDepartment d initialState) it
  = selection_holds d (DEPARTAMENTO it).
Proof. unfold record_matches. cbn. now rewrite !andb_true_r. Qed.

Lemma program_only_matches (p : jsstring) (it : item) :
  record_matches (setSelectedProgram p initialState) it
  = selection_holds p (NOMBRE_DEL_PROGRAMA it).
Proof. unfold record_matches. now cbn. Qed.

Lemma field_matches_lowered (t1 t2 : jsstring) (field : value jsstring) :
  toLowerCase t1 = toLowerCase t2 ->
  field_matches t1 field = field_matches t2 field.
Proof. intros H. destruct field; cbn; now rewrite ?H. Qed.

Lemma search_holds_lowered (t1 t2 : jsstring) (it : item) :
  t1 <> [] -> t2 <> [] -> toLowerCase t1 = toLowerCase t2 ->
  search_holds t1 it = search_holds t2 it.
Proof.
  intros H1 H2 H. unfold search_holds.
  apply jsstring_eqb_neq in H1, H2. rewrite H1, H2. cbn.
  f_equal; [now apply field_matches_lowered|].
  f_equal; [now apply field_matches_lowered|].
  f_equal; [now apply field_matches_lowered|].
  f_equal. now apply field_matches_lowered.
Qed.

Lemma selection_holds_value (s : jsstring) (field : value jsstring) :
  s <> [] -> selection_holds s field = true -> field = Present s.
Proof.
  intros Hs H. apply selection_holds_iff in H as [H | H];
    [contradiction | assumption].
Qed.

Lemma selection_holds_self (s : jsstring) :
  selection_holds s (Present s) = true.
Proof. apply selection_holds_iff. now right. Qed.

End ViewFacts.

(** X1.  Filtering a filtered view again with the same state changes
    nothing. *)
Theorem filteredData_idempotent :
  forall (P : Platform) (data : list item) (st : FilterState),
    exists out,
      filteredData data st = Normal out /\
      filteredData out st = Normal out.
Proof.
  intros P data st. exists (filter (record_matches st) data).
  split; [apply filteredData_filter|].
  rewrite filteredData_filter, filter_twice. f_equal.
  apply filter_ext. intros it. apply andb_diag.
Qed.

(** X2.  Two filter states can be applied one after the other in either
    order: the resulting views are the same. *)
Theorem filteredData_commute :
  forall (P : Platform) (data : list item) (st1 st2 : FilterState),
    exists first second out,
      filteredData data st1 = Normal first /\
      filteredData first st2 = Normal out /\
      filteredData data st2 = Normal second /\
      filteredData second st1 = Normal out.
Proof.
  intros P data st1 st2.
  exists (filter (record_matches st1) data), (filter (record_matches st2) data),
    (filter (record_matches st2) (filter (record_matches st1) data)).
  repeat split; try apply filteredData_filter.
  rewrite filteredData_filter. f_equal. rewrite !filter_twice.
  apply filter_ext. intros it. apply andb_comm.
Qed.

(** X3.  The view under a state is what remains after filtering by the
    search term alone, then by the institution alone, then by the region
    alone, then by the program alone. *)
Theorem filteredData_one_field_at_a_time :
  forall (P : Platform) (data : list item) (st : FilterState),
    exists a b c out,
      filteredData data (setSearchTerm (searchTerm st) initialState)
      = Normal a /\
      filteredData a (setSelectedUniversity (selectedUniversity st) initialState)
      = Normal b /\
      filteredData b (setSelectedDepartment (selectedDepartment st) initialState)
      = Normal c /\
      filteredData c (setSelectedProgram (selectedProgram st) initialState)
      = Normal out /\
      filteredData data st = Normal out.
Proof.
  intros P data st. do 4 eexists.
  repeat (split; [apply filteredData_filter|]).
  rewrite filteredData_filter. f_equal. rewrite !filter_twice.
  apply filter_ext. intros it.
  rewrite search_only_matches, university_only_matches,
    department_only_matches, program_only_matches.
  unfold record_matches.
  destruct (search_holds (searchTerm st) it),
    (selection_holds (selectedUniversity st) (NOMBRE_IES it)),
    (selection_holds (selectedDepartment st) (DEPARTAMENTO it)),
    (selection_holds (selectedProgram st) (NOMBRE_DEL_PROGRAMA it));
    reflexivity.
Qed.

(** X4.  The search ignores the case of the term: two terms that are not
    empty and have the same lowercase form give the same view. *)
Theorem filteredData_term_case_insensitive :
  forall (P : Platform) (data : list item) (st : FilterState)
         (t1 t2 : jsstring),
    t1 <> [] -> t2 <> [] -> toLowerCase t1 = toLowerCase t2 ->
    filteredData data (setSearchTerm t1 st)
    = filteredData data (setSearchTerm t2 st).
Proof.
  intros P data st t1 t2 H1 H2 H. rewrite !filteredData_filter. f_equal.
  apply filter_ext. intros it. unfold record_matches. cbn.
  do 3 f_equal. now apply search_holds_lowered.
Qed.

Lemma filteredData_term_case_insensitive_witness :
  filteredData Reference.dataset (setSearchTerm (str "r1") initialState)
  = filteredData Reference.dataset (setSearchTerm (str "R1") initialState).
Proof.
  apply filteredData_term_case_insensitive; [discriminate | discriminate |].
  reflexivity.
Defined.

Section SelectionFacts.
Context {P : Platform}.

Lemma search_holds_narrower (t t' : jsstring) (it : item) :
  t' <> [] ->
  is_substring (toLowerCase t) (toLowerCase t') ->
  search_holds t' it = true -> search_holds t it = true.
Proof.
  intros Hne [pre [post Hsub]] H.
  apply search_holds_iff in H. apply search_holds_iff.
  destruct H as [H | [field [s [Hin [-> [a [b Hs]]]]]]]; [contradiction|].
  right. exists (Present s), s. split; [assumption|]. split; [reflexivity|].
  exists (a ++ pre), (post ++ b).
  rewrite Hs, Hsub, <- !app_assoc. reflexivity.
Qed.

Lemma offered_option_matches (field : item -> value jsstring) (m : item -> bool)
    (data : list item) (s : jsstring) :
  (forall it, m it = selection_holds s (field it)) ->
  In (Present s) (Array_sort (spread (new_Set (map field data)))) ->
  filter m data <> [] /\
  (s <> [] -> forall it, In it (filter m data) -> field it = Present s).
Proof.
  intros Hm Hin. apply facet_In_column in Hin as [r [Hr Hs]]. split.
  - intros E. assert (Hf : In r (filter m data)).
    { apply filter_In. split; [assumption|].
      rewrite Hm, Hs. apply selection_holds_self. }
    rewrite E in Hf. contradiction.
  - intros Hne it Hit. apply filter_In in Hit as [_ Hit].
    rewrite Hm in Hit. now apply selection_holds_value.
Qed.

Lemma absent_option_no_match (field : item -> value jsstring)
    (data : list item) (s : jsstring) :
  s <> [] ->
  ~ In (Present s) (Array_sort (spread (new_Set (map field data)))) ->
  forall it, In it data -> selection_holds s (field it) = false.
Proof.
  intros Hs Hnot it Hit.
  destruct (selection_holds s (field it)) eqn:E; [|reflexivity].
  exfalso. apply Hnot. apply facet_In_column. exists it.
  split; [assumption | now apply selection_holds_value].
Qed.

Lemma new_Set_constant (column : list (value jsstring)) (v : value jsstring) :
  (forall x, In x column -> x = v) ->
  length (new_Set column) = Nat.min 1 (length column).
Proof.
  intros Hall. destruct column as [|x column]; [reflexivity|].
  apply (lists_distinct_values_length (l2 := [v]) (new_Set_distinct (x :: column))).
  split.
  - constructor; [intros [] | constructor].
  - intros y. split.
    + intros [<- | []]. rewrite <- (Hall x (or_introl eq_refl)). now left.
    + intros Hy. left. symmetry. now apply Hall.
Qed.

Lemma new_Set_subsequence (field : item -> value jsstring) (a b : list item) :
  subsequence a b ->
  length (new_Set (map field a)) <= length (new_Set (map field b)).
Proof.
  intros Hs.
  destruct (new_Set_distinct (map field a)) as [Na Ia].
  destruct (new_Set_distinct (map field b)) as [Nb Ib].
  apply NoDup_incl_length; [assumption|].
  intros v Hv. apply Ib. apply Ia in Hv.
  apply in_map_iff in Hv as [it [<- Hit]].
  apply in_map. now apply (subsequence_In Hs).
Qed.

Lemma new_Set_bounds (column : list (value jsstring)) :
  length (new_Set column) <= length column /\
  (length (new_Set column) = 0 <-> column = []).
Proof.
  destruct (new_Set_distinct column) as [Nd In_].
  split.
  - apply NoDup_incl_length; [assumption|]. intros v Hv. now apply In_.
  - split.
    + intros H0. destruct column as [|x column]; [reflexivity|].
      assert (Hx : In x (new_Set (x :: column))) by (apply In_; now left).
      destruct (new_Set (x :: column)); [contradiction | discriminate].
    + now intros ->.
Qed.

End SelectionFacts.

(** X5.  A term narrows the view of any term whose lowercase form occurs
    in its own: when [t'] is not empty and the lowercase form of [t] is a
    substring of the lowercase form of [t'], the view for [t'] is a
    subsequence of the view for [t], the other fields being the same. *)
Theorem filteredData_contained_term_narrows :
  forall (P : Platform) (data : list item) (st : FilterState)
         (t t' : jsstring),
    t' <> [] ->
    is_substring (toLowerCase t) (toLowerCase t') ->
    exists wide narrow,
      filteredData data (setSearchTerm t st) = Normal wide /\
      filteredData data (setSearchTerm t' st) = Normal narrow /\
      subsequence narrow wide.
Proof.
  intros P data st t t' Hne Hsub. do 2 eexists.
  split; [apply filteredData_filter|]. split; [apply filteredData_filter|].
  apply subsequence_filter_implies. intros it. unfold record_matches. cbn.
  rewrite !andb_true_iff. intros [[[Hs Hu] Hd] Hp].
  repeat split; try assumption.
  eapply search_holds_narrower; [exact Hne | exact Hsub | exact Hs].
Qed.

Lemma filteredData_contained_term_narrows_witness :
  exists wide narrow,
    filteredData Reference.dataset (setSearchTerm (str "R") initialState)
    = Normal wide /\
    filteredData Reference.dataset (setSearchTerm (str "r1") initialState)
    = Normal narrow /\
    subsequence narrow wide.
Proof.
  apply (@filteredData_contained_term_narrows Reference.platform).
  - discriminate.
  - exists [], (str "1"). reflexivity.
Defined.

(** X6.  Choosing a string that is among the options of a facet, the other
    fields being empty, never gives an empty view; and when that string is
    not empty, every record of the view has it as the value of the field. *)
Theorem offered_option_gives_records :
  forall (P : Platform) (data : list item) (s : jsstring),
    (In (Present s) (universities data) ->
     exists out,
       filteredData data (setSelectedUniversity s initialState) = Normal out /\
       out <> [] /\
       (s <> [] -> forall it, In it out -> NOMBRE_IES it = Present s)) /\
    (In (Present s) (departments data) ->
     exists out,
       filteredData data (setSelectedDepartment s initialState) = Normal out /\
       out <> [] /\
       (s <> [] -> forall it, In it out -> DEPARTAMENTO it = Present s)) /\
    (In (Present s) (programs data) ->
     exists out,
       filteredData data (setSelectedProgram s initialState) = Normal out /\
       out <> [] /\
       (s <> [] -> forall it, In it out -> NOMBRE_DEL_PROGRAMA it = Present s)).
Proof.
  intros P data s. repeat split; intros Hin; eexists;
    (split; [apply filteredData_filter|]).
  - apply (offered_option_matches NOMBRE_IES); [|exact Hin].
    apply university_only_matches.
  - apply (offered_option_matches DEPARTAMENTO); [|exact Hin].
    apply department_only_matches.
  - apply (offered_option_matches NOMBRE_DEL_PROGRAMA); [|exact Hin].
    apply program_only_matches.
Qed.

Lemma offered_option_gives_records_witness :
  exists out,
    filteredData Reference.dataset
      (setSelectedUniversity (str "X") initialState) = Normal out /\
    out <> [] /\
    (str "X" <> [] -> forall it, In it out -> NOMBRE_IES it = Present (str "X")).
Proof.
  apply (proj1 (offered_option_gives_records Reference.dataset (str "X"))).
  left. reflexivity.
Defined.

(** X7.  Choosing a non-empty string that is not among the options of a
    facet gives the empty view, whatever the other fields hold. *)
Theorem absent_option_gives_nothing :
  forall (P : Platform) (data : list item) (st : FilterState) (s : jsstring),
    s <> [] ->
    (~ In (Present s) (universities data) ->
     filteredData data (setSelectedUniversity s st) = Normal []) /\
    (~ In (Present s) (departments data) ->
     filteredData data (setSelectedDepartment s st) = Normal []) /\
    (~ In (Present s) (programs data) ->
     filteredData data (setSelectedProgram s st) = Normal []).
Proof.
  intros P data st s Hs. repeat split; intros Hnot;
    rewrite filteredData_filter; f_equal; apply filter_none;
    intros it Hit; unfold record_matches; cbn.
  - rewrite (absent_option_no_match NOMBRE_IES data Hs Hnot it Hit).
    now rewrite andb_false_r.
  - rewrite (absent_option_no_match DEPARTAMENTO data Hs Hnot it Hit).
    now rewrite andb_false_r.
  - rewrite (absent_option_no_match NOMBRE_DEL_PROGRAMA data Hs Hnot it Hit).
    now rewrite andb_false_r.
Qed.

Lemma absent_option_gives_nothing_witness :
  filteredData Reference.dataset
    (setSelectedUniversity (str "Z") (setSearchTerm (str "r1") initialState))
  = Normal [].
Proof.
  assert (Hz : str "Z" <> []) by discriminate.
  apply (proj1 (absent_option_gives_nothing Reference.dataset
                  (setSearchTerm (str "r1") initialState) Hz)).
  vm_compute. intros [H | [H | []]]; discriminate H.
Defined.

(* ================================================================== *)
(** * Further properties of the statistics and the option lists *)

(** X8.  While an institution is selected, the institution count of the view
    is 1, or 0 when the view is empty; likewise the region count while a
    region is selected. *)
Theorem selected_facet_counts_one :
  forall (P : Platform) (data : list item) (st : FilterState),
    (selectedUniversity st <> [] ->
     exists out,
       filteredData data st = Normal out /\
       uniqueUniversities (stats out) = Nat.min 1 (length out)) /\
    (selectedDepartment st <> [] ->
     exists out,
       filteredData data st = Normal out /\
       uniqueDepartments (stats out) = Nat.min 1 (length out)).
Proof.
  intros P data st. split; intros Hsel; eexists;
    (split; [apply filteredData_filter|]); cbn; unfold Set_size.
  - rewrite new_Set_constant with (v := Present (selectedUniversity st)).
    + now rewrite length_map.
    + intros x Hx. apply in_map_iff in Hx as [it [<- Hit]].
      apply filter_In in Hit as [_ Hm]. unfold record_matches in Hm.
      rewrite !andb_true_iff in Hm. destruct Hm as [[[_ Hu] _] _].
      now apply selection_holds_value.
  - rewrite new_Set_constant with (v := Present (selectedDepartment st)).
    + now rewrite length_map.
    + intros x Hx. apply in_map_iff in Hx as [it [<- Hit]].
      apply filter_In in Hit as [_ Hm]. unfold record_matches in Hm.
      rewrite !andb_true_iff in Hm. destruct Hm as [[[_ _] Hd] _].
      now apply selection_holds_value.
Qed.

Lemma selected_facet_counts_one_witness :
  exists out,
    filteredData Reference.dataset
      (setSelectedUniversity (str "X") initialState) = Normal out /\
    uniqueUniversities (stats out) = Nat.min 1 (length out).
Proof.
  apply (proj1 (selected_facet_counts_one Reference.dataset
                  (setSelectedUniversity (str "X") initialState))).
  discriminate.
Defined.

(** X9.  Filtering a view further never raises a count: the number of
    programs, of institutions and of regions of the narrower view are at
    most those of the view it was taken from. *)
Theorem stats_counts_shrink :
  forall (P : Platform) (data : list item) (st st' : FilterState),
    exists view narrower,
      filteredData data st = Normal view /\
      filteredData view st' = Normal narrower /\
      totalPrograms (stats narrower) <= totalPrograms (stats view) /\
      uniqueUniversities (stats narrower) <= uniqueUniversities (stats view) /\
      uniqueDepartments (stats narrower) <= uniqueDepartments (stats view).
Proof.
  intros P data st st'. do 2 eexists.
  split; [apply filteredData_filter|]. split; [apply filteredData_filter|].
  pose proof (subsequence_filter (record_matches st')
                (filter (record_matches st) data)) as Hs.
  split; [now apply subsequence_length|].
  split; now apply new_Set_subsequence.
Qed.

(** X10.  The institution count and the region count are at most the number
    of programs, and each is zero exactly when the view is empty. *)
Theorem unique_counts_bounds :
  forall (P : Platform) (view : list item),
    uniqueUniversities (stats view) <= totalPrograms (stats view) /\
    uniqueDepartments (stats view) <= totalPrograms (stats view) /\
    (uniqueUniversities (stats view) = 0 <-> view = []) /\
    (uniqueDepartments (stats view) = 0 <-> view = []).
Proof.
  intros P view. cbn. unfold Set_size.
  destruct (new_Set_bounds (map NOMBRE_IES view)) as [Lu Zu].
  destruct (new_Set_bounds (map DEPARTAMENTO view)) as [Ld Zd].
  rewrite length_map in Lu, Ld.
  repeat split; try assumption.
  - intros H. apply Zu in H. now apply map_eq_nil in H.
  - intros ->. now apply Zu.
  - intros H. apply Zd in H. now apply map_eq_nil in H.
  - intros ->. now apply Zd.
Qed.

(** X11.  With the full dataset in view the institution count is the length
    of the institution option list and the region count that of the region
    option list; under any filter state the counts are at most those
    lengths. *)
Theorem unique_counts_and_option_lists :
  forall (P : Platform) (data : list item) (st : FilterState),
    uniqueUniversities (stats data) = length (universities data) /\
    uniqueDepartments (stats data) = length (departments data) /\
    exists out,
      filteredData data st = Normal out /\
      uniqueUniversities (stats out) <= length (universities data) /\
      uniqueDepartments (stats out) <= length (departments data).
Proof.
  intros P data st.
  assert (Eu : uniqueUniversities (stats data) = length (universities data)).
  { apply Permutation_length. apply Array_sort_Permutation. }
  assert (Ed : uniqueDepartments (stats data) = length (departments data)).
  { apply Permutation_length. apply Array_sort_Permutation. }
  split; [exact Eu|]. split; [exact Ed|].
  eexists. split; [apply filteredData_filter|].
  rewrite <- Eu, <- Ed.
  pose proof (subsequence_filter (record_matches st) data) as Hs.
  split; now apply new_Set_subsequence.
Qed.

(** X12.  Whatever the filter state, the institution, the region and the
    program of every record in the view are entries of the three option
    lists. *)
Theorem shown_values_are_options :
  forall (P : Platform) (data : list item) (st : FilterState),
    exists out,
      filteredData data st = Normal out /\
      forall it,
        In it out ->
        In (NOMBRE_IES it) (universities data) /\
        In (DEPARTAMENTO it) (departments data) /\
        In (NOMBRE_DEL_PROGRAMA it) (programs data).
Proof.
  intros P data st. eexists. split; [apply filteredData_filter|].
  intros it Hit. apply filter_In in Hit as [Hit _].
  repeat split; apply facet_In_column; now exists it.
Qed.

(* ================================================================== *)
(** * The clear button, the loader and the screens *)

Lemma clearButtonShown_initial (st : FilterState) :
  clearButtonShown st = false <-> st = initialState.
Proof.
  destruct st as [[|a t] [|b u] [|c d] [|e p]]; cbn; split; intros H;
    try discriminate H; reflexivity.
Qed.

(** X13.  The clear button is rendered exactly when some field of the
    filter state is not empty; pressing it makes it disappear; and while it
    is not rendered the view is the whole dataset. *)
Theorem clear_button_tracks_filters :
  forall (P : Platform) (data : list item) (st : FilterState),
    (clearButtonShown st = false <-> st = initialState) /\
    clearButtonShown (clearFilters st) = false /\
    (clearButtonShown st = false -> filteredData data st = Normal data).
Proof.
  intros P data st. split; [apply clearButtonShown_initial|].
  split; [reflexivity|].
  intros H. apply clearButtonShown_initial in H. subst st.
  rewrite filteredData_filter. f_equal. apply filter_all.
  intros it. apply record_matches_initial.
Qed.

Lemma clear_button_tracks_filters_witness :
  filteredData Reference.dataset (clearFilters (setSearchTerm (str "r1") initialState))
  = Normal Reference.dataset.
Proof.
  apply (proj2 (proj2 (clear_button_tracks_filters Reference.dataset
                         (clearFilters (setSearchTerm (str "r1") initialState))))).
  reflexivity.
Defined.

(** X14.  When [loadData] has run on the initial state the spinner is gone
    for good, whatever the world did.  If the response is ok, its body is
    read, the workbook is decoded and the rows of its first sheet are
    produced, then the main screen is rendered, the dataset is those rows,
    all of them are in view and the clear button is not rendered.  If the
    response is ok and reading the body, decoding the workbook or producing
    the rows throws, the error screen is rendered with the fixed prefix
    followed by the message of what was thrown, and no row is loaded. *)
Theorem loadData_success_and_decode_failures :
  forall (P : Platform) (ArrayBuffer Worksheet : Type)
         (w : World ArrayBuffer Worksheet),
    (loading (loadData w initialComponent) = false /\
     render (loadData w initialComponent) <> LoadingScreen) /\
    (forall response,
        fetch w (str "/ESP_TOC.xlsx") = Returns response ->
        ok response = true ->
        (forall buffer workbook name others rows,
            arrayBuffer response = Returns buffer ->
            XLSX_read w buffer = Returns workbook ->
            SheetNames workbook = name :: others ->
            sheet_to_json w (Sheets workbook name) = Returns rows ->
            render (loadData w initialComponent) = MainScreen /\
            data (loadData w initialComponent) = rows /\
            filteredData (data (loadData w initialComponent))
              (filters (loadData w initialComponent)) = Normal rows /\
            clearButtonShown (filters (loadData w initialComponent)) = false) /\
        (forall message,
            arrayBuffer response = Rejects message \/
            (exists buffer,
                arrayBuffer response = Returns buffer /\
                XLSX_read w buffer = Rejects message) \/
            (exists buffer workbook name others,
                arrayBuffer response = Returns buffer /\
                XLSX_read w buffer = Returns workbook /\
                SheetNames workbook = name :: others /\
                sheet_to_json w (Sheets workbook name) = Rejects message) ->
            render (loadData w initialComponent)
            = ErrorScreen
                (Present (str "Error al cargar el archivo: " ++ message)) /\
            data (loadData w initialComponent) = [])).
Proof.
  intros P ArrayBuffer Worksheet w. split.
  - unfold loadData. destruct (load_rows w); split; (reflexivity || discriminate).
  - intros response Hf Hok. split.
    + intros buffer workbook name others rows Hb Hr Hn Hj.
      assert (E : load_rows w = Returns rows).
      { unfold load_rows, first_sheet. rewrite Hf. cbn [and_then].
        rewrite Hok, Hb. cbn [negb and_then]. rewrite Hr. cbn [and_then].
        rewrite Hn. exact Hj. }
      unfold loadData. rewrite E.
      split; [reflexivity|]. split; [reflexivity|]. split; [|reflexivity].
      rewrite filteredData_filter. f_equal. apply filter_all.
      intros it. apply record_matches_initial.
    + intros message H.
      assert (E : load_rows w = Rejects message).
      { unfold load_rows, first_sheet. rewrite Hf. cbn [and_then]. rewrite Hok.
        cbn [negb].
        destruct H as [Hb | [[buffer [Hb Hr]]
                            | [buffer [workbook [name [others [Hb [Hr [Hn Hj]]]]]]]]].
        - now rewrite Hb.
        - rewrite Hb. cbn [and_then]. now rewrite Hr.
        - rewrite Hb. cbn [and_then]. rewrite Hr. cbn [and_then].
          rewrite Hn. exact Hj. }
      unfold loadData. rewrite E. split; reflexivity.
Qed.

Lemma loadData_success_and_decode_failures_witness :
  render (loadData world_example initialComponent) = MainScreen /\
  data (loadData world_example initialComponent) = Reference.dataset /\
  filteredData (data (loadData world_example initialComponent))
    (filters (loadData world_example initialComponent))
  = Normal Reference.dataset /\
  clearButtonShown (filters (loadData world_example initialComponent)) = false.
Proof.
  apply (proj1 (proj2 (loadData_success_and_decode_failures world_example)
                  {| ok := true; arrayBuffer := Returns tt |}
                  eq_refl eq_refl)
           tt
           {| SheetNames := [str "Hoja1"]; Sheets := fun _ => Present tt |}
           (str "Hoja1") []);
    reflexivity.
Defined.

(** X15.  A response that is not ok, whatever its body and whatever the
    decoder would do, ends on the error screen with the message of the
    component itself; a fetch that is rejected ends there with the message
    of the rejection.  In both cases no row is loaded. *)
Theorem loadData_fetch_failures :
  forall (P : Platform) (ArrayBuffer Worksheet : Type)
         (w : World ArrayBuffer Worksheet),
    (forall response,
        fetch w (str "/ESP_TOC.xlsx") = Returns response ->
        ok response = false ->
        render (loadData w initialComponent)
        = ErrorScreen
            (Present
               (str "Error al cargar el archivo: No se pudo cargar el archivo ESP_TOC.xlsx")) /\
        data (loadData w initialComponent) = []) /\
    (forall message,
        fetch w (str "/ESP_TOC.xlsx") = Rejects message ->
        render (loadData w initialComponent)
        = ErrorScreen (Present (str "Error al cargar el archivo: " ++ message)) /\
        data (loadData w initialComponent) = []).
Proof.
  intros P ArrayBuffer Worksheet w. split.
  - intros response Hf Hok. unfold loadData, load_rows.
    rewrite Hf. cbn [and_then]. rewrite Hok. split; reflexivity.
  - intros message Hf. unfold loadData, load_rows.
    rewrite Hf. split; reflexivity.
Qed.

Lemma loadData_fetch_failures_witness :
  render (loadData world_not_found initialComponent)
  = ErrorScreen
      (Present
         (str "Error al cargar el archivo: No se pudo cargar el archivo ESP_TOC.xlsx")) /\
  data (loadData world_not_found initialComponent) = [].
Proof.
  apply (proj1 (loadData_fetch_failures world_not_found)
           {| ok := false; arrayBuffer := Returns tt |});
    reflexivity.
Defined.

(* ================================================================== *)
(** * A further property of the currency label *)

Lemma drop_zeros_head (cut : nat) (l : list N) :
  length l <= cut ->
  drop_zeros cut l = [] \/
  exists d r, drop_zeros cut l = d :: r /\ d <> 0%N.
Proof.
  revert l; induction cut as [|cut IH]; intros [|d l] H; cbn in *;
    try (now left); try lia.
  destruct (N.eqb_spec d 0).
  - apply IH. lia.
  - right. now exists d, l.
Qed.

(** X16.  For an amount that is not falsy, the fraction digits that
    [formatCurrency] has rendered never end in a zero: where the currency
    has two fraction digits, 1500.50 is written with the single digit 5. *)
Theorem formatCurrency_no_trailing_zero :
  forall (P : Platform) (n : number),
    num_truthy n = true ->
    exists parts,
      NumberFormat_parts currencyOptions n = Normal parts /\
      formatCurrency (Present n)
      = Normal (locale_render (str "es-CO") currencyOptions parts) /\
      forall digits, fractionDigits parts <> digits ++ [0%N].
Proof.
  intros P n T. destruct (formatCurrency_truthy n T) as [E F].
  eexists. split; [exact E|]. split; [exact F|].
  intros digits. unfold ToRawFixed.
  destruct (num_scaled_round n (CurrencyDigits (str "COP"))) as [neg m].
  cbn [fractionDigits].
  destruct (@drop_zeros_head (CurrencyDigits (str "COP") - 0)
              (rev (fixed_digits (CurrencyDigits (str "COP"))
                      (m mod 10 ^ N.of_nat (CurrencyDigits (str "COP"))))))
    as [E0 | [d [r [E0 Hd]]]].
  - rewrite length_rev, fixed_digits_length. lia.
  - rewrite E0. cbn. intros H. now apply app_cons_not_nil in H.
  - rewrite E0. cbn. intros H. apply app_inj_tail in H as [_ H]. contradiction.
Qed.

Lemma formatCurrency_no_trailing_zero_witness :
  exists parts,
    NumberFormat_parts (P := Reference.platform) currencyOptions
      (avgMatricula (stats [Reference.recordA; Reference.recordD]))
    = Normal parts /\
    formatCurrency (P := Reference.platform)
      (Present (avgMatricula (stats [Reference.recordA; Reference.recordD])))
    = Normal (@locale_render Reference.platform (str "es-CO") currencyOptions parts) /\
    forall digits, fractionDigits parts <> digits ++ [0%N].
Proof.
  apply (@formatCurrency_no_trailing_zero Reference.platform). reflexivity.
Defined.

(** X17.  The clear button forgets what came before it: the filter state
    after a sequence of user actions that contains a press of the button is
    the state that the actions after that press produce from the initial
    state, and so is the view. *)
Theorem clear_forgets_history :
  forall (P : Platform) (data : list item) (st : FilterState)
         (before after : list UserAction),
    run st (before ++ ClickClear :: after) = run initialState after /\
    filteredData data (run st (before ++ ClickClear :: after))
    = filteredData data (run initialState after).
Proof.
  intros P data st before after.
  assert (E : run st (before ++ ClickClear :: after) = run initialState after).
  { unfold run. rewrite fold_left_app. cbn [fold_left handle].
    now rewrite clearFilters_initial. }
  split; [exact E | now rewrite E].
Qed.
